(** * knuu: the instance helper (pkg/knuu/instance_helper.go)

    A shallow embedding of the helper methods of [Instance] and the
    properties of them that the specification states.

    Conventions of the embedding.
    - A Go [error] value is an [option error]: [None] is [nil].
    - A method with a pointer receiver that assigns a field returns the
      updated instance next to its Go results.
    - A Go panic is the [Panic] outcome of the monad [M].
    - Slices and maps are references into a heap, so that two instances
      can share one backing array ([cloneWithSuffix]).
    - The cluster client (package [k8s]), the UUID source and the builder
      factory are collaborators outside this file: they are the fields of
      a [Platform], and every call made to them is appended to the
      [calls] of the world, with the arguments the code passes.
    - [logrus.Debugf] only logs and is left out. *)

From Stdlib Require Import ZArith String Ascii List Lia.
From stdpp Require Import gmap strings list fin_maps pretty.

Local Open Scope string_scope.

(** ** Errors *)

(** [fmt.Errorf] builds an error from a message; with the verb [%w] the
    new error also wraps its cause. *)
Inductive error : Type :=
| New (msg : string)
| Wrap (msg : string) (cause : error).

Definition Error (e : error) : string :=
  match e with
  | New m => m
  | Wrap m _ => m
  end.

Definition Unwrap (e : error) : option error :=
  match e with
  | New _ => None
  | Wrap _ c => Some c
  end.

(** [fmt.Errorf(prefix + "%w", err)] *)
Definition Errorf_w (prefix : string) (err : error) : error :=
  Wrap (prefix +:+ Error err) err.

(** [fmt.Errorf(prefix + "%v", err)] *)
Definition Errorf_v (prefix : string) (err : error) : error :=
  New (prefix +:+ Error err).

(** ** Package strings *)

(** [strings.Contains(s, substr)] *)
Fixpoint Contains (s substr : string) : bool :=
  String.prefix substr s
  || match s with
     | EmptyString => false
     | String _ s' => Contains s' substr
     end.

(** The scan of [strings.Split] for a separator that is not empty:
    [skip] bytes of a separator just matched are still to be passed,
    [cur] is the piece read so far. *)
Fixpoint split_from (sep : string) (skip : nat) (cur s : string) : list string :=
  match s with
  | EmptyString => [cur]
  | String c s' =>
      match skip with
      | S k => split_from sep k cur s'
      | O =>
          if String.prefix sep s
          then cur :: split_from sep (String.length sep - 1) "" s'
          else split_from sep 0 (cur +:+ String c "") s'
      end
  end.

(** [strings.Split(s, sep)]; with an empty separator Go cuts after every
    UTF-8 sequence, which is every byte for ASCII text. *)
Definition Split (s sep : string) : list string :=
  match sep with
  | EmptyString => (fun c => String c "") <$> list_ascii_of_string s
  | _ => split_from sep 0 "" s
  end.

(** Number of occurrences of the byte [c] in [s]. *)
Fixpoint occurrences (c : ascii) (s : string) : nat :=
  match s with
  | EmptyString => 0
  | String d s' => (if Ascii.eqb c d then 1 else 0) + occurrences c s'
  end.

(** ** Outcomes and the heap *)

Inductive Res (A : Type) : Type :=
| Val (a : A)
| Panic (msg : string).
Arguments Val {A} a.
Arguments Panic {A} msg.

(** [resource.Quantity]: an exact number; [Add] is exact addition. The
    model keeps a quantity as an integer number of the unit its parser
    counts in. *)
Definition Quantity : Type := Z.

(** [k8s.Volume] *)
Record Volume : Type := mkVolume {
  Path : string;
  Size : string;
  Owner : Z
}.

Definition loc : Type := nat.

(** What a reference points to: the backing array of a slice, or a map. *)
Inductive obj : Type :=
| IntArr (xs : list Z)
| StrArr (xs : list string)
| VolArr (xs : list Volume)
| StrMap (m : gmap string string).

(** A slice header. No slice of this file is re-sliced, so the offset
    into the backing array is always 0. The nil slice has length and
    capacity 0 and no element is ever read through it. *)
Record slice : Type := mkSlice {
  s_arr : loc;
  s_len : nat;
  s_cap : nat
}.

Definition nil_slice : slice := {| s_arr := 0; s_len := 0; s_cap := 0 |}.

(** A map value is a reference; [None] is the nil map. *)
Definition mapref : Type := option loc.

Definition ints (h : gmap loc obj) (s : slice) : list Z :=
  match h !! s_arr s with
  | Some (IntArr xs) => take (s_len s) xs
  | _ => []
  end.

Definition strs (h : gmap loc obj) (s : slice) : list string :=
  match h !! s_arr s with
  | Some (StrArr xs) => take (s_len s) xs
  | _ => []
  end.

Definition vols (h : gmap loc obj) (s : slice) : list Volume :=
  match h !! s_arr s with
  | Some (VolArr xs) => take (s_len s) xs
  | _ => []
  end.

Definition strmap (h : gmap loc obj) (m : mapref) : gmap string string :=
  match m with
  | Some l => match h !! l with
              | Some (StrMap kv) => kv
              | _ => ∅
              end
  | None => ∅
  end.

(** ** Types of the cluster client *)

(** The fields of [v1.Service] that the helper reads ([ObjectMeta.Labels],
    [Spec.Selector]) and the ports the client sets from its arguments. *)
Record ObjectMeta : Type := mkObjectMeta {
  Labels : gmap string string
}.

Record ServiceSpec : Type := mkServiceSpec {
  Selector : gmap string string;
  PortsTCP : list Z;
  PortsUDP : list Z
}.

Record Service : Type := mkService {
  Meta : ObjectMeta;
  Spec : ServiceSpec
}.

(** [k8s.PodConfig], with the elements read through its slices and map. *)
Record PodConfig : Type := mkPodConfig {
  pc_Namespace : string;
  pc_Name : string;
  pc_Labels : gmap string string;
  pc_Image : string;
  pc_Command : list string;
  pc_Args : list string;
  pc_Env : gmap string string;
  pc_Volumes : list Volume;
  pc_MemoryRequest : string;
  pc_MemoryLimit : string;
  pc_CPURequest : string;
  pc_ServiceAccountName : string
}.

(** [k8s.StatefulSetConfig] *)
Record StatefulSetConfig : Type := mkStatefulSetConfig {
  sc_Namespace : string;
  sc_Name : string;
  sc_Labels : gmap string string;
  sc_Replicas : Z;
  sc_PodConfig : PodConfig
}.

(** A call into a collaborator, with its arguments. A slice argument is
    recorded as the elements visible through it at the call. *)
Inductive Call : Type :=
| GetService (ns name : string)
| DeployService (ns name : string) (labels selector : gmap string string)
    (portsTCP portsUDP : list Z)
| PatchService (ns name : string) (labels selector : gmap string string)
    (portsTCP portsUDP : list Z)
| DeleteService (ns name : string)
| DeployStatefulSet (cfg : StatefulSetConfig) (init : bool)
| DeleteStatefulSetWithGracePeriod (ns name : string) (grace : option Z)
| DeployPersistentVolumeClaim (ns name : string) (labels : gmap string string)
    (size : Quantity)
| DeletePersistentVolumeClaim (ns name : string)
| NewRandom
| AddToBuilder (src dest chown : string).

(** The image of the workload that a logged call deploys. *)
Definition image_of (c : Call) : option string :=
  match c with
  | DeployStatefulSet cfg _ => Some (pc_Image (sc_PodConfig cfg))
  | _ => None
  end.

(** ** The instance and its collaborators *)

Section Helper.

(** Types declared outside the helper file: the enumerations
    [InstanceType] and [InstanceState], the handle [*appsv1.StatefulSet],
    the builder factory, and the state of everything outside the
    process (the cluster, the random source, the builder). *)
Context {InstanceType InstanceState StatefulSet BuilderFactory C : Type}.

(** [InstanceType.String] *)
Variable TypeString : InstanceType -> string.

(** The package variables [identifier] and [startTime]. *)
Variables identifier startTime : string.

(** [resource.ParseQuantity]; [None] is a parse error. *)
Variable ParseQuantity : string -> option Quantity.

Record Instance : Type := mkInstance {
  name : string;
  k8sName : string;
  imageName : string;
  state : InstanceState;
  instanceType : InstanceType;
  kubernetesService : option Service;
  builderFactory : BuilderFactory;
  kubernetesStatefulSet : option StatefulSet;
  portsTCP : slice;
  portsUDP : slice;
  command : slice;
  args : slice;
  env : mapref;
  volumes : slice;
  memoryRequest : string;
  memoryLimit : string;
  cpuRequest : string;
  serviceAccountName : string
}.

(** The collaborators. Each takes the arguments of the Go function and
    the outside state, and gives the Go results and the next state. The
    Go results that the helper discards are given as [option error]. *)
Record Platform : Type := mkPlatform {
  Namespace : string;
  on_GetService :
    string -> string -> C -> (option Service * option error) * C;
  on_DeployService :
    string -> string -> gmap string string -> gmap string string ->
    list Z -> list Z -> C -> (option Service * option error) * C;
  on_PatchService :
    string -> string -> gmap string string -> gmap string string ->
    list Z -> list Z -> C -> option error * C;
  on_DeleteService : string -> string -> C -> option error * C;
  on_DeployStatefulSet :
    StatefulSetConfig -> bool -> C -> (option StatefulSet * option error) * C;
  on_DeleteStatefulSetWithGracePeriod :
    string -> string -> option Z -> C -> option error * C;
  on_DeployPersistentVolumeClaim :
    string -> string -> gmap string string -> Quantity -> C -> option error * C;
  on_DeletePersistentVolumeClaim : string -> string -> C -> option error * C;
  on_NewRandom : C -> (string * option error) * C;
  on_AddToBuilder :
    BuilderFactory -> string -> string -> string -> C -> option error * C
}.

Variable P : Platform.

Record World : Type := mkWorld {
  heap : gmap loc obj;
  cluster : C;
  calls : list Call
}.

(** *** The monad of the helper: a world, and a value or a panic *)

Definition M (A : Type) : Type := World -> Res A * World.

Definition ret {A} (a : A) : M A := fun w => (Val a, w).

Definition bind {A B} (m : M A) (k : A -> M B) : M B :=
  fun w =>
    match m w with
    | (Val a, w') => k a w'
    | (Panic msg, w') => (Panic msg, w')
    end.

Definition panic {A} (msg : string) : M A := fun w => (Panic msg, w).

Notation "'let*' p ':=' m 'in' k" := (bind m (fun p => k))
  (at level 10, p pattern, m at level 100, k at level 200).

(** The world after a call: the state the platform answers with, and
    one more call in the log. *)
Definition after (w : World) (c : Call) (c' : C) : World :=
  {| heap := heap w; cluster := c'; calls := (calls w ++ [c])%list |}.

(** A call into a collaborator: logged, then answered by the platform. *)
Definition call {A} (c : Call) (handler : C -> A * C) : M A :=
  fun w =>
    let '(a, c') := handler (cluster w) in
    (Val a, after w c c').

(** Reading the elements of a slice or a map of the instance. *)
Definition read {A} (f : gmap loc obj -> A) : M A :=
  fun w => (Val (f (heap w)), w).

Definition k8s_GetService (ns nm : string) : M (option Service * option error) :=
  call (GetService ns nm) (on_GetService P ns nm).

Definition k8s_DeployService (ns nm : string) (labels selector : gmap string string)
    (tcp udp : slice) : M (option Service * option error) :=
  let* t := read (fun h => ints h tcp) in
  let* u := read (fun h => ints h udp) in
  call (DeployService ns nm labels selector t u)
       (on_DeployService P ns nm labels selector t u).

Definition k8s_PatchService (ns nm : string) (labels selector : gmap string string)
    (tcp udp : slice) : M (option error) :=
  let* t := read (fun h => ints h tcp) in
  let* u := read (fun h => ints h udp) in
  call (PatchService ns nm labels selector t u)
       (on_PatchService P ns nm labels selector t u).

Definition k8s_DeleteService (ns nm : string) : M (option error) :=
  call (DeleteService ns nm) (on_DeleteService P ns nm).

Definition k8s_DeployStatefulSet (cfg : StatefulSetConfig) (init : bool)
    : M (option StatefulSet * option error) :=
  call (DeployStatefulSet cfg init) (on_DeployStatefulSet P cfg init).

Definition k8s_DeleteStatefulSetWithGracePeriod (ns nm : string) (grace : option Z)
    : M (option error) :=
  call (DeleteStatefulSetWithGracePeriod ns nm grace)
       (on_DeleteStatefulSetWithGracePeriod P ns nm grace).

Definition k8s_DeployPersistentVolumeClaim (ns nm : string)
    (labels : gmap string string) (size : Quantity) : M (option error) :=
  call (DeployPersistentVolumeClaim ns nm labels size)
       (on_DeployPersistentVolumeClaim P ns nm labels size).

Definition k8s_DeletePersistentVolumeClaim (ns nm : string) : M (option error) :=
  call (DeletePersistentVolumeClaim ns nm) (on_DeletePersistentVolumeClaim P ns nm).

Definition uuid_NewRandom : M (string * option error) :=
  call NewRandom (on_NewRandom P).

Definition AddToBuilderCall (b : BuilderFactory) (src dest chown : string)
    : M (option error) :=
  call (AddToBuilder src dest chown) (on_AddToBuilder P b src dest chown).

(** [resource.MustParse] panics where [ParseQuantity] fails. The panic
    value of the library also carries the parse error; the message kept
    here names the text only. *)
Definition MustParse (str : string) : Res Quantity :=
  match ParseQuantity str with
  | Some q => Val q
  | None => Panic ("cannot parse '" +:+ str +:+ "'")
  end.

(** *** The helper methods *)

(** getImageRegistry returns the name of the temporary image registry *)
Definition getImageRegistry (i : Instance) : M (string * option error) :=
  if negb (String.eqb (imageName i) "") then ret (imageName i, None)
  else
    let* (uuid, err) := uuid_NewRandom in
    match err with
    | Some e => ret ("", Some (Errorf_w "error generating UUID: " e))
    | None => ret ("ttl.sh/" +:+ uuid +:+ ":1h", None)
    end.

(** getLabels returns the labels for the instance *)
Definition getLabels (i : Instance) : gmap string string :=
  <["app" := k8sName i]>
  (<["k8s.kubernetes.io/managed-by" := "knuu"]>
  (<["test-run-id" := identifier]>
  (<["test-started" := startTime]>
  (<["name" := name i]>
  (<["k8s-name" := k8sName i]>
  (<["type" := TypeString (instanceType i)]> ∅)))))).

Definition set_kubernetesService (i : Instance) (s : option Service) : Instance :=
  {| name := name i; k8sName := k8sName i; imageName := imageName i;
     state := state i; instanceType := instanceType i;
     kubernetesService := s;
     builderFactory := builderFactory i;
     kubernetesStatefulSet := kubernetesStatefulSet i;
     portsTCP := portsTCP i; portsUDP := portsUDP i;
     command := command i; args := args i; env := env i;
     volumes := volumes i;
     memoryRequest := memoryRequest i; memoryLimit := memoryLimit i;
     cpuRequest := cpuRequest i;
     serviceAccountName := serviceAccountName i |}.

Definition set_kubernetesStatefulSet (i : Instance) (s : option StatefulSet)
    : Instance :=
  {| name := name i; k8sName := k8sName i; imageName := imageName i;
     state := state i; instanceType := instanceType i;
     kubernetesService := kubernetesService i;
     builderFactory := builderFactory i;
     kubernetesStatefulSet := s;
     portsTCP := portsTCP i; portsUDP := portsUDP i;
     command := command i; args := args i; env := env i;
     volumes := volumes i;
     memoryRequest := memoryRequest i; memoryLimit := memoryLimit i;
     cpuRequest := cpuRequest i;
     serviceAccountName := serviceAccountName i |}.

(** patchService patches the service for the instance. With no cached
    handle it fetches one; the labels and the selector it passes on are
    those of the handle. A fetch that gives neither a service nor an
    error leaves the handle nil, and reading its fields panics. *)
Definition patchService (i : Instance) : M (Instance * option error) :=
  let* (i1, lookup) :=
    match kubernetesService i with
    | None =>
        let* (svc, err) := k8s_GetService (Namespace P) (k8sName i) in
        match err with
        | Some e =>
            ret (i, Some (Errorf_w ("error getting service '" +:+ k8sName i +:+ "': ") e))
        | None => ret (set_kubernetesService i svc, None)
        end
    | Some _ => ret (i, None)
    end in
  match lookup with
  | Some e => ret (i1, Some e)
  | None =>
      match kubernetesService i1 with
      | None => panic "invalid memory address or nil pointer dereference"
      | Some s =>
          let* err := k8s_PatchService (Namespace P) (k8sName i1)
                   (Labels (Meta s)) (Selector (Spec s))
                   (portsTCP i1) (portsUDP i1) in
          match err with
          | Some e =>
              ret (i1, Some (Errorf_w ("error patching service '" +:+ k8sName i1 +:+ "': ") e))
          | None => ret (i1, None)
          end
      end
  end.

(** Lines 82 to 90 of deployService: the creation, which the code
    reaches whether or not the service was found. *)
Definition deployService_create (i : Instance) : M (Instance * option error) :=
  let labels := getLabels i in
  let selectorMap := getLabels i in
  let* (service, err) := k8s_DeployService (Namespace P) (k8sName i) labels selectorMap
                       (portsTCP i) (portsUDP i) in
  match err with
  | Some e =>
      ret (i, Some (Errorf_w ("error deploying service '" +:+ k8sName i +:+ "': ") e))
  | None => ret (set_kubernetesService i service, None)
  end.

(** deployService deploys the service for the instance *)
Definition deployService (i : Instance) : M (Instance * option error) :=
  let* (svc, _) := k8s_GetService (Namespace P) (k8sName i) in
  match svc with
  | Some _ =>
      let* (i1, err) := patchService i in
      match err with
      | Some e =>
          ret (i1, Some (Errorf_w ("error patching service '" +:+ k8sName i1 +:+ "': ") e))
      | None => deployService_create i1
      end
  | None => deployService_create i
  end.

(** destroyService destroys the service for the instance *)
Definition destroyService (i : Instance) : M (option error) :=
  let* _ := k8s_DeleteService (Namespace P) (k8sName i) in
  ret None.

(** deployPod deploys the pod for the instance *)
Definition deployPod (i : Instance) : M (Instance * option error) :=
  let labels := getLabels i in
  let* (image, err) := getImageRegistry i in
  match err with
  | Some e => ret (i, Some (Errorf_v "failed to get image name: " e))
  | None =>
      let* cmd := read (fun h => strs h (command i)) in
      let* ar := read (fun h => strs h (args i)) in
      let* en := read (fun h => strmap h (env i)) in
      let* vs := read (fun h => vols h (volumes i)) in
      let podConfig :=
        {| pc_Namespace := Namespace P; pc_Name := k8sName i;
           pc_Labels := labels; pc_Image := image;
           pc_Command := cmd; pc_Args := ar; pc_Env := en; pc_Volumes := vs;
           pc_MemoryRequest := memoryRequest i;
           pc_MemoryLimit := memoryLimit i;
           pc_CPURequest := cpuRequest i;
           pc_ServiceAccountName := serviceAccountName i |} in
      let statefulSetConfig :=
        {| sc_Namespace := Namespace P; sc_Name := k8sName i;
           sc_Labels := labels; sc_Replicas := 1%Z;
           sc_PodConfig := podConfig |} in
      let* (statefulSet, err') := k8s_DeployStatefulSet statefulSetConfig true in
      match err' with
      | Some e => ret (i, Some (Errorf_v "failed to deploy pod: " e))
      | None => ret (set_kubernetesStatefulSet i statefulSet, None)
      end
  end.

(** destroyPod destroys the pod for the instance (no grace period) *)
Definition destroyPod (i : Instance) : M (option error) :=
  let grace := 0%Z in
  let* err := k8s_DeleteStatefulSetWithGracePeriod (Namespace P) (k8sName i) (Some grace) in
  match err with
  | Some e => ret (Some (Errorf_v "failed to delete pod: " e))
  | None => ret None
  end.

(** The loop of deployVolume: [size.Add(resource.MustParse(volume.Size))]
    for each volume in order. *)
Fixpoint addSizes (size : Quantity) (vs : list Volume) : Res Quantity :=
  match vs with
  | [] => Val size
  | volume :: rest =>
      match MustParse (Size volume) with
      | Val q => addSizes (size + q)%Z rest
      | Panic msg => Panic msg
      end
  end.

(** deployVolume deploys the volume for the instance *)
Definition deployVolume (i : Instance) : M (option error) :=
  let* vs := read (fun h => vols h (volumes i)) in
  let* size := (fun w => (addSizes 0%Z vs, w)) in
  let* _ := k8s_DeployPersistentVolumeClaim (Namespace P) (k8sName i) (getLabels i) size in
  ret None.

(** destroyVolume destroys the volume for the instance *)
Definition destroyVolume (i : Instance) : M (option error) :=
  let* _ := k8s_DeletePersistentVolumeClaim (Namespace P) (k8sName i) in
  ret None.

(** cloneWithSuffix clones the instance with a suffix. Every field but
    the two names is assigned as it is: a slice header, a map reference
    or a handle is copied, not what it refers to. The composite literal
    names no [serviceAccountName], which is left at its zero value. *)
Definition cloneWithSuffix (i : Instance) (suffix : string) : Instance :=
  {| name := name i +:+ suffix;
     k8sName := k8sName i +:+ suffix;
     imageName := imageName i;
     state := state i;
     instanceType := instanceType i;
     kubernetesService := kubernetesService i;
     builderFactory := builderFactory i;
     kubernetesStatefulSet := kubernetesStatefulSet i;
     portsTCP := portsTCP i;
     portsUDP := portsUDP i;
     command := command i;
     args := args i;
     env := env i;
     volumes := volumes i;
     memoryRequest := memoryRequest i;
     memoryLimit := memoryLimit i;
     cpuRequest := cpuRequest i;
     serviceAccountName := "" |}.

(** validateFileArgs validates the file arguments *)
Definition validateFileArgs (i : Instance) (src dest chown : string) : option error :=
  if String.eqb src "" then Some (New "src must be set")
  else if String.eqb dest "" then Some (New "dest must be set")
  else if String.eqb chown "" then Some (New "chown must be set")
  else if negb (Contains chown ":")
          || negb (Nat.eqb (length (Split chown ":")) 2)
  then Some (New "chown must be in format 'user:group'")
  else None.

(** addFileToBuilder adds a file to the builder *)
Definition addFileToBuilder (i : Instance) (src dest chown : string)
    : M (option error) :=
  let* err := AddToBuilderCall (builderFactory i) dest dest chown in
  match err with
  | Some e =>
      ret (Some (Errorf_w ("error adding file '" +:+ dest +:+ "' to instance '"
                            +:+ name i +:+ "': ") e))
  | None => ret None
  end.

(** *** Go statements on a slice of ints, for the callers that change
    the ports of an instance *)

(** [s[idx] = v]: panics when [idx] is not below the length. *)
Definition store_int (s : slice) (idx : nat) (v : Z) : M unit :=
  fun w =>
    if Nat.ltb idx (s_len s) then
      match heap w !! s_arr s with
      | Some (IntArr xs) =>
          (Val tt, {| heap := <[s_arr s := IntArr (<[idx := v]> xs)]> (heap w);
                      cluster := cluster w; calls := calls w |})
      | _ => (Panic "index out of range", w)
      end
    else (Panic "index out of range", w).

(** A location that the heap does not use. *)
Definition fresh_loc (h : gmap loc obj) : loc :=
  S (foldr Nat.max 0 (elements (dom h))).

(** [append(s, v)]: with spare capacity the element is written into the
    backing array just after the length; otherwise the elements move to
    a new array, of twice the capacity while capacities are small. *)
Definition append_int (s : slice) (v : Z) : M slice :=
  fun w =>
    if Nat.ltb (s_len s) (s_cap s) then
      match heap w !! s_arr s with
      | Some (IntArr xs) =>
          (Val {| s_arr := s_arr s; s_len := S (s_len s); s_cap := s_cap s |},
           {| heap := <[s_arr s := IntArr (<[s_len s := v]> xs)]> (heap w);
              cluster := cluster w; calls := calls w |})
      | _ => (Panic "slice without backing array", w)
      end
    else
      let newcap := Nat.max (S (s_len s)) (2 * s_cap s) in
      let l := fresh_loc (heap w) in
      let xs := (ints (heap w) s ++ [v])%list in
      (Val {| s_arr := l; s_len := S (s_len s); s_cap := newcap |},
       {| heap := <[l := IntArr (xs ++ replicate (newcap - length xs) 0%Z)%list]> (heap w);
          cluster := cluster w; calls := calls w |}).

(** validatePort validates the port. The verb [%d] prints the port in
    decimal, with a minus sign when it is negative. *)
Definition validatePort (port : Z) : option error :=
  if (port <? 1)%Z || (port >? 65535)%Z
  then Some (New ("port number '" +:+ pretty port +:+ "' is out of range"))
  else None.

(** The range loop of isTCPPortRegistered and isUDPPortRegistered: it
    returns true at the first element equal to the port. *)
Fixpoint rangeFinds (ps : list Z) (port : Z) : bool :=
  match ps with
  | [] => false
  | p :: rest => if (p =? port)%Z then true else rangeFinds rest port
  end.

(** isTCPPortRegistered returns true if the given port is registered
    with the instance, and false otherwise *)
Definition isTCPPortRegistered (i : Instance) (port : Z) : M bool :=
  let* ps := read (fun h => ints h (portsTCP i)) in
  ret (rangeFinds ps port).

(** isUDPPortRegistered returns true if the given port is registered
    with the instance, and false otherwise *)
Definition isUDPPortRegistered (i : Instance) (port : Z) : M bool :=
  let* ps := read (fun h => ints h (portsUDP i)) in
  ret (rangeFinds ps port).

(** generateK8sName: the name, a dash, and the first eight bytes of a
    new random identifier. The slice expression [uuid.String()[:8]]
    panics on a string of fewer than eight bytes. *)
Definition generateK8sName (nm : string) : M (string * option error) :=
  let* (uuid, err) := uuid_NewRandom in
  match err with
  | Some e => ret ("", Some (Errorf_w "error generating UUID: " e))
  | None =>
      if Nat.leb 8 (String.length uuid)
      then ret (nm +:+ "-" +:+ String.substring 0 8 uuid, None)
      else panic "slice bounds out of range"
  end.

(** Two instances with the same declared state: they agree on every
    field but the two handles. *)
Definition same_declared (i j : Instance) : Prop :=
  name i = name j /\ k8sName i = k8sName j /\ imageName i = imageName j
  /\ state i = state j /\ instanceType i = instanceType j
  /\ builderFactory i = builderFactory j
  /\ portsTCP i = portsTCP j /\ portsUDP i = portsUDP j
  /\ command i = command j /\ args i = args j /\ env i = env j
  /\ volumes i = volumes j
  /\ memoryRequest i = memoryRequest j /\ memoryLimit i = memoryLimit j
  /\ cpuRequest i = cpuRequest j
  /\ serviceAccountName i = serviceAccountName j.

(** The configuration that deployPod builds for an image, with the
    elements read through the slices and the map of the instance
    (lines 128 to 149). *)
Definition statefulSetConfigOf (i : Instance) (image : string) (h : gmap loc obj)
    : StatefulSetConfig :=
  {| sc_Namespace := Namespace P; sc_Name := k8sName i;
     sc_Labels := getLabels i; sc_Replicas := 1%Z;
     sc_PodConfig :=
       {| pc_Namespace := Namespace P; pc_Name := k8sName i;
          pc_Labels := getLabels i; pc_Image := image;
          pc_Command := strs h (command i); pc_Args := strs h (args i);
          pc_Env := strmap h (env i); pc_Volumes := vols h (volumes i);
          pc_MemoryRequest := memoryRequest i;
          pc_MemoryLimit := memoryLimit i;
          pc_CPURequest := cpuRequest i;
          pc_ServiceAccountName := serviceAccountName i |} |}.

End Helper.

Arguments Instance : clear implicits.
Arguments Platform : clear implicits.
Arguments World : clear implicits.

(** ** A reference platform

    The collaborators are outside the helper file. To run the helper on
    concrete inputs, this module gives one platform: a cluster that keeps
    its resources by name, a random source that hands out a given list of
    identifiers, and a builder that records what is staged. *)

Module Ref.

(** The state outside the process. *)
Record Cluster : Type := mkCluster {
  services : gmap string Service;
  workloads : gmap string StatefulSetConfig;
  claims : gmap string (gmap string string * Quantity);
  uuids : list string;
  staged : list (string * string * string)
}.

Definition NotFound (kind nm : string) : error :=
  New (kind +:+ " '" +:+ nm +:+ "' not found").

Definition AlreadyExists (kind nm : string) : error :=
  New (kind +:+ " '" +:+ nm +:+ "' already exists").

Definition with_services (c : Cluster) (s : gmap string Service) : Cluster :=
  {| services := s; workloads := workloads c; claims := claims c;
     uuids := uuids c; staged := staged c |}.

Definition with_workloads (c : Cluster) (s : gmap string StatefulSetConfig) : Cluster :=
  {| services := services c; workloads := s; claims := claims c;
     uuids := uuids c; staged := staged c |}.

Definition with_claims (c : Cluster) (s : gmap string (gmap string string * Quantity))
    : Cluster :=
  {| services := services c; workloads := workloads c; claims := s;
     uuids := uuids c; staged := staged c |}.

Definition mkSvc (labels selector : gmap string string) (tcp udp : list Z) : Service :=
  {| Meta := {| Labels := labels |};
     Spec := {| Selector := selector; PortsTCP := tcp; PortsUDP := udp |} |}.

(** Modelled from the spec: the cluster resource client of section 6
    (get, create, patch and delete of a Service, keyed by cluster name).
    A get, patch or delete of a missing service fails as not found, and
    the creation of a service that exists fails as a conflict. *)
Definition getService (ns nm : string) (c : Cluster)
    : (option Service * option error) * Cluster :=
  match services c !! nm with
  | Some s => ((Some s, None), c)
  | None => ((None, Some (NotFound "service" nm)), c)
  end.

Definition createService (ns nm : string) (labels selector : gmap string string)
    (tcp udp : list Z) (c : Cluster) : (option Service * option error) * Cluster :=
  match services c !! nm with
  | Some _ => ((None, Some (AlreadyExists "service" nm)), c)
  | None =>
      let s := mkSvc labels selector tcp udp in
      ((Some s, None), with_services c (<[nm := s]> (services c)))
  end.

Definition patchServiceOf (ns nm : string) (labels selector : gmap string string)
    (tcp udp : list Z) (c : Cluster) : option error * Cluster :=
  match services c !! nm with
  | Some _ =>
      (None, with_services c (<[nm := mkSvc labels selector tcp udp]> (services c)))
  | None => (Some (NotFound "service" nm), c)
  end.

Definition deleteService (ns nm : string) (c : Cluster) : option error * Cluster :=
  match services c !! nm with
  | Some _ => (None, with_services c (delete nm (services c)))
  | None => (Some (NotFound "service" nm), c)
  end.

(** Modelled from the spec: the workload part of the cluster client
    (create, delete with a grace period). The handle of a created
    workload is the configuration it was created from. *)
Definition createStatefulSet (cfg : StatefulSetConfig) (init : bool) (c : Cluster)
    : (option StatefulSetConfig * option error) * Cluster :=
  ((Some cfg, None), with_workloads c (<[sc_Name cfg := cfg]> (workloads c))).

Definition deleteStatefulSet (ns nm : string) (grace : option Z) (c : Cluster)
    : option error * Cluster :=
  match workloads c !! nm with
  | Some _ => (None, with_workloads c (delete nm (workloads c)))
  | None => (Some (NotFound "statefulset" nm), c)
  end.

(** Modelled from the spec: the volume claim part of the cluster client
    (create, delete). *)
Definition createClaim (ns nm : string) (labels : gmap string string) (size : Quantity)
    (c : Cluster) : option error * Cluster :=
  match claims c !! nm with
  | Some _ => (Some (AlreadyExists "persistentvolumeclaim" nm), c)
  | None => (None, with_claims c (<[nm := (labels, size)]> (claims c)))
  end.

Definition deleteClaim (ns nm : string) (c : Cluster) : option error * Cluster :=
  match claims c !! nm with
  | Some _ => (None, with_claims c (delete nm (claims c)))
  | None => (Some (NotFound "persistentvolumeclaim" nm), c)
  end.

(** The random source: the next identifier of the list, or an error
    when none is left. *)
Definition newRandom (c : Cluster) : (string * option error) * Cluster :=
  match uuids c with
  | u :: rest =>
      ((u, None),
       {| services := services c; workloads := workloads c; claims := claims c;
          uuids := rest; staged := staged c |})
  | [] => (("", Some (New "no random data")), c)
  end.

(** Modelled from the spec: the image builder of section 6,
    [addToBuilder(destPath, destPath, ownerSpec)]. *)
Definition addToBuilder (b : unit) (src dest chown : string) (c : Cluster)
    : option error * Cluster :=
  (None,
   {| services := services c; workloads := workloads c; claims := claims c;
      uuids := uuids c; staged := (staged c ++ [(src, dest, chown)])%list |}).

Definition platform : Platform StatefulSetConfig unit Cluster :=
  {| Namespace := "test";
     on_GetService := getService;
     on_DeployService := createService;
     on_PatchService := patchServiceOf;
     on_DeleteService := deleteService;
     on_DeployStatefulSet := createStatefulSet;
     on_DeleteStatefulSetWithGracePeriod := deleteStatefulSet;
     on_DeployPersistentVolumeClaim := createClaim;
     on_DeletePersistentVolumeClaim := deleteClaim;
     on_NewRandom := newRandom;
     on_AddToBuilder := addToBuilder |}.

(** The unsigned whole-number forms of the quantity grammar, in base
    units: decimal digits, then nothing or one of the suffixes Ki, Mi, Gi,
    Ti, Pi, Ei, k, M, G, T, P, E. It is used below only on such forms and
    on text that is no number at all. *)
Definition digit (c : ascii) : option Z :=
  let n := Z.of_nat (nat_of_ascii c) in
  if ((48 <=? n) && (n <=? 57))%Z then Some (n - 48)%Z else None.

Fixpoint number (acc : option Z) (s : string) : option Z * string :=
  match s with
  | EmptyString => (acc, s)
  | String c s' =>
      match digit c with
      | Some d => number (Some (10 * default 0%Z acc + d)%Z) s'
      | None => (acc, s)
      end
  end.

Definition suffix (s : string) : option Z :=
  if String.eqb s "" then Some 1%Z
  else if String.eqb s "Ki" then Some (2 ^ 10)%Z
  else if String.eqb s "Mi" then Some (2 ^ 20)%Z
  else if String.eqb s "Gi" then Some (2 ^ 30)%Z
  else if String.eqb s "Ti" then Some (2 ^ 40)%Z
  else if String.eqb s "Pi" then Some (2 ^ 50)%Z
  else if String.eqb s "Ei" then Some (2 ^ 60)%Z
  else if String.eqb s "k" then Some (10 ^ 3)%Z
  else if String.eqb s "M" then Some (10 ^ 6)%Z
  else if String.eqb s "G" then Some (10 ^ 9)%Z
  else if String.eqb s "T" then Some (10 ^ 12)%Z
  else if String.eqb s "P" then Some (10 ^ 15)%Z
  else if String.eqb s "E" then Some (10 ^ 18)%Z
  else None.

Definition parseQuantity (s : string) : option Quantity :=
  match number None s with
  | (Some n, rest) =>
      match suffix rest with
      | Some m => Some (n * m)%Z
      | None => None
      end
  | (None, _) => None
  end.

Definition Inst : Type := Instance string string StatefulSetConfig unit.
Definition Wld : Type := World Cluster.

(** The type of an instance is given by its name, and the run by two
    fixed label values. *)
Definition typeString (t : string) : string := t.
Definition runId : string := "run-1".
Definition started : string := "2023-07-01T10:00:00Z".

Definition emptyCluster : Cluster :=
  {| services := ∅; workloads := ∅; claims := ∅; uuids := []; staged := [] |}.

(** An instance named web with the TCP port 8080, no UDP port and one
    volume of 1Gi (the scenario of section 8 of the specification). Its
    ports are the backing array at 1, its volumes the one at 2, which has
    room for a second volume. *)
Definition web : Inst :=
  {| name := "web"; k8sName := "web-1a2b3c4d"; imageName := "";
     state := "None"; instanceType := "BasicInstance";
     kubernetesService := None; builderFactory := tt;
     kubernetesStatefulSet := None;
     portsTCP := {| s_arr := 1; s_len := 1; s_cap := 1 |};
     portsUDP := nil_slice;
     command := nil_slice; args := nil_slice; env := None;
     volumes := {| s_arr := 2; s_len := 1; s_cap := 2 |};
     memoryRequest := ""; memoryLimit := ""; cpuRequest := "";
     serviceAccountName := "" |}.

Definition heapOf (tcp : list Z) (volumes : list Volume) : gmap loc obj :=
  <[1 := IntArr tcp]> (<[2 := VolArr volumes]> ∅).

Definition webHeap : gmap loc obj :=
  heapOf [8080%Z] [mkVolume "/data" "1Gi" 0%Z; mkVolume "" "" 0%Z].

Definition world0 : Wld :=
  {| heap := webHeap; cluster := emptyCluster; calls := [] |}.

(** web after a second volume of 2Gi was appended to its volumes. *)
Definition webTwoVolumes : Inst :=
  {| name := name web; k8sName := k8sName web; imageName := imageName web;
     state := state web; instanceType := instanceType web;
     kubernetesService := kubernetesService web;
     builderFactory := builderFactory web;
     kubernetesStatefulSet := kubernetesStatefulSet web;
     portsTCP := portsTCP web; portsUDP := portsUDP web;
     command := command web; args := args web; env := env web;
     volumes := {| s_arr := 2; s_len := 2; s_cap := 2 |};
     memoryRequest := memoryRequest web; memoryLimit := memoryLimit web;
     cpuRequest := cpuRequest web;
     serviceAccountName := serviceAccountName web |}.

Definition worldTwoVolumes : Wld :=
  {| heap := heapOf [8080%Z] [mkVolume "/data" "1Gi" 0%Z; mkVolume "/logs" "2Gi" 0%Z];
     cluster := emptyCluster; calls := [] |}.

(** A world in which the one volume of web declares a size that is no
    quantity. *)
Definition worldBadSize : Wld :=
  {| heap := heapOf [8080%Z] [mkVolume "/data" "lots" 0%Z; mkVolume "" "" 0%Z];
     cluster := emptyCluster; calls := [] |}.

(** A world in which the claim of web exists already. *)
Definition worldClaimed : Wld :=
  {| heap := webHeap;
     cluster := with_claims emptyCluster {[ "web-1a2b3c4d" := (∅, 1%Z) ]};
     calls := [] |}.

(** The service that deployService creates for web, web with the handle
    of it, and the world after that first deployment. *)
Definition webService : Service :=
  mkSvc (getLabels typeString runId started web) (getLabels typeString runId started web)
    [8080%Z] [].

Definition webDeployed : Inst := set_kubernetesService web (Some webService).

Definition world1 : Wld :=
  {| heap := webHeap;
     cluster := with_services emptyCluster {[ "web-1a2b3c4d" := webService ]};
     calls := [GetService "test" "web-1a2b3c4d";
               DeployService "test" "web-1a2b3c4d"
                 (getLabels typeString runId started web)
                 (getLabels typeString runId started web) [8080%Z] []] |}.

(** A world in which the service of web exists with labels that are not
    those of the instance. *)
Definition legacyLabels : gmap string string := {[ "app" := "legacy" ]}.

Definition worldLegacy : Wld :=
  {| heap := webHeap;
     cluster := with_services emptyCluster
                  {[ "web-1a2b3c4d" := mkSvc legacyLabels legacyLabels [80%Z] [] ]};
     calls := [] |}.

(** A world whose random source gives two identifiers. *)
Definition worldRandom : Wld :=
  {| heap := webHeap;
     cluster := {| services := ∅; workloads := ∅; claims := ∅;
                   uuids := ["0b9f5c1e-7a3d-4c1b-9a52-3f1d2e4a6b70";
                             "f47ac10b-58cc-4372-a567-0e02b2c3d479"];
                   staged := [] |};
     calls := [] |}.

(** web with a resolved image. *)
Definition webWithImage : Inst :=
  {| name := name web; k8sName := k8sName web; imageName := "nginx:1.25";
     state := state web; instanceType := instanceType web;
     kubernetesService := kubernetesService web;
     builderFactory := builderFactory web;
     kubernetesStatefulSet := kubernetesStatefulSet web;
     portsTCP := portsTCP web; portsUDP := portsUDP web;
     command := command web; args := args web; env := env web;
     volumes := volumes web;
     memoryRequest := memoryRequest web; memoryLimit := memoryLimit web;
     cpuRequest := cpuRequest web;
     serviceAccountName := serviceAccountName web |}.

(** An instance with three TCP ports in a backing array of capacity 4,
    as three appends from the nil slice leave it. *)
Definition api : Inst :=
  {| name := "api"; k8sName := "api-5e6f7a8b"; imageName := "";
     state := "None"; instanceType := "BasicInstance";
     kubernetesService := None; builderFactory := tt;
     kubernetesStatefulSet := None;
     portsTCP := {| s_arr := 1; s_len := 3; s_cap := 4 |};
     portsUDP := nil_slice;
     command := nil_slice; args := nil_slice; env := None;
     volumes := nil_slice;
     memoryRequest := ""; memoryLimit := ""; cpuRequest := "";
     serviceAccountName := "" |}.

Definition worldApi : Wld :=
  {| heap := heapOf [8080%Z; 8081%Z; 8082%Z; 0%Z] [];
     cluster := emptyCluster; calls := [] |}.

End Ref.

(** ** A cluster that refuses writes

    The reference platform, but the patch and the creation of a service
    are refused, as for an account that may only read. *)

Module ReadOnly.

Definition Forbidden (kind nm : string) : error :=
  New (kind +:+ " '" +:+ nm +:+ "' is forbidden").

Definition platform : Platform StatefulSetConfig unit Ref.Cluster :=
  {| Namespace := Namespace Ref.platform;
     on_GetService := on_GetService Ref.platform;
     on_DeployService :=
       fun ns nm _ _ _ _ c => ((None, Some (Forbidden "service" nm)), c);
     on_PatchService := fun ns nm _ _ _ _ c => (Some (Forbidden "service" nm), c);
     on_DeleteService := on_DeleteService Ref.platform;
     on_DeployStatefulSet := on_DeployStatefulSet Ref.platform;
     on_DeleteStatefulSetWithGracePeriod :=
       on_DeleteStatefulSetWithGracePeriod Ref.platform;
     on_DeployPersistentVolumeClaim := on_DeployPersistentVolumeClaim Ref.platform;
     on_DeletePersistentVolumeClaim := on_DeletePersistentVolumeClaim Ref.platform;
     on_NewRandom := on_NewRandom Ref.platform;
     on_AddToBuilder := on_AddToBuilder Ref.platform |}.

End ReadOnly.

(** ** Facts about the string functions *)

Lemma prefix_colon (c : ascii) (s : string) :
  String.prefix ":" (String c s) = Ascii.eqb ":" c.
Proof.
  change (String.prefix ":" (String c s))
    with (if ascii_dec ":" c then String.prefix "" s else false).
  destruct (ascii_dec ":" c) as [e | n].
  - rewrite <- e, Ascii.eqb_refl. destruct s; reflexivity.
  - symmetry. apply Ascii.eqb_neq. exact n.
Qed.

Lemma split_from_colon_length (s cur : string) :
  length (split_from ":" 0 cur s) = S (occurrences ":" s).
Proof.
  revert cur. induction s as [| c s IH]; intros cur.
  - reflexivity.
  - cbn [split_from occurrences]. rewrite prefix_colon.
    destruct (Ascii.eqb ":" c); cbn [length String.length Nat.sub Nat.add].
    + rewrite IH. reflexivity.
    + apply IH.
Qed.

Lemma Split_colon_length (s : string) :
  length (Split s ":") = S (occurrences ":" s).
Proof. apply split_from_colon_length. Qed.

Lemma Contains_colon (s : string) :
  Contains s ":" = negb (Nat.eqb (occurrences ":" s) 0).
Proof.
  induction s as [| c s IH].
  - reflexivity.
  - cbn [Contains occurrences]. rewrite prefix_colon, IH.
    destruct (Ascii.eqb ":" c); reflexivity.
Qed.

Lemma eqb_empty (s : string) : String.eqb s "" = true <-> s = "".
Proof. apply String.eqb_eq. Qed.

(** ** Facts about the helper methods *)

Section HelperFacts.

Context {InstanceType InstanceState StatefulSet BuilderFactory C : Type}.
Variable TypeString : InstanceType -> string.
Variables identifier startTime : string.
Variable ParseQuantity : string -> option Quantity.
Variable P : Platform StatefulSet BuilderFactory C.

Local Abbreviation Inst := (Instance InstanceType InstanceState StatefulSet BuilderFactory).
Local Abbreviation Wld := (World C).

Lemma call_eq {A} (c : Call) (handler : C -> A * C) (w : Wld) :
  call c handler w = (Val (fst (handler (cluster w))), after w c (snd (handler (cluster w)))).
Proof. unfold call, after. destruct (handler (cluster w)). reflexivity. Qed.

Lemma validateFileArgs_ok (i : Inst) (src dest chown : string) :
  validateFileArgs i src dest chown = None <->
  src <> "" /\ dest <> "" /\ chown <> "" /\ occurrences ":" chown = 1.
Proof.
  unfold validateFileArgs.
  rewrite Contains_colon, Split_colon_length, Bool.negb_involutive.
  destruct (String.eqb_spec src "") as [-> | Hs].
  { split; [discriminate | intros [H _]; contradiction]. }
  destruct (String.eqb_spec dest "") as [-> | Hd].
  { split; [discriminate | intros (_ & H & _); contradiction]. }
  destruct (String.eqb_spec chown "") as [-> | Hc].
  { split; [discriminate | intros (_ & _ & H & _); contradiction]. }
  destruct (occurrences ":" chown) as [| [| n]]; cbn.
  - split; [discriminate | intros (_ & _ & _ & H); discriminate].
  - split; [intros _; repeat split; assumption | reflexivity].
  - split; [discriminate | intros (_ & _ & _ & H); discriminate].
Qed.

Lemma addFileToBuilder_eq (i : Inst) (src dest chown : string) (w : Wld) :
  addFileToBuilder P i src dest chown w =
  (Val match fst (on_AddToBuilder P (builderFactory i) dest dest chown (cluster w)) with
       | Some e =>
           Some (Errorf_w ("error adding file '" +:+ dest +:+ "' to instance '"
                           +:+ name i +:+ "': ") e)
       | None => None
       end,
   after w (AddToBuilder dest dest chown)
     (snd (on_AddToBuilder P (builderFactory i) dest dest chown (cluster w)))).
Proof.
  unfold addFileToBuilder, AddToBuilderCall, bind. rewrite call_eq.
  destruct (fst _); reflexivity.
Qed.

(** C9. File staging checks that src, dest and the owner are not empty
    and that the owner holds exactly one colon, and fails with one of the
    four argument errors otherwise; the builder is handed the triple
    (dest, dest, owner) in one call, whatever the source path is. *)
Theorem file_staging_validates_and_forwards_dest_twice
    (i : Inst) (src dest chown : string) (w : Wld) :
  (validateFileArgs i src dest chown = None <->
   src <> "" /\ dest <> "" /\ chown <> "" /\ occurrences ":" chown = 1)
  /\ (forall e, validateFileArgs i src dest chown = Some e ->
        e ∈ [New "src must be set"; New "dest must be set"; New "chown must be set";
             New "chown must be in format 'user:group'"])
  /\ calls (snd (addFileToBuilder P i src dest chown w))
     = (calls w ++ [AddToBuilder dest dest chown])%list
  /\ cluster (snd (addFileToBuilder P i src dest chown w))
     = snd (on_AddToBuilder P (builderFactory i) dest dest chown (cluster w)).
Proof.
  split; [apply validateFileArgs_ok |].
  split.
  - intros e. unfold validateFileArgs.
    repeat match goal with
           | |- context [if ?b then _ else _] => destruct b
           end; intros H; inversion H; subst; set_solver.
  - rewrite addFileToBuilder_eq. split; reflexivity.
Qed.

Lemma destroyService_eq (i : Inst) (w : Wld) :
  destroyService P i w =
  (Val None, after w (DeleteService (Namespace P) (k8sName i))
               (snd (on_DeleteService P (Namespace P) (k8sName i) (cluster w)))).
Proof. unfold destroyService, k8s_DeleteService, bind. rewrite call_eq. reflexivity. Qed.

Lemma destroyVolume_eq (i : Inst) (w : Wld) :
  destroyVolume P i w =
  (Val None, after w (DeletePersistentVolumeClaim (Namespace P) (k8sName i))
               (snd (on_DeletePersistentVolumeClaim P (Namespace P) (k8sName i) (cluster w)))).
Proof.
  unfold destroyVolume, k8s_DeletePersistentVolumeClaim, bind. rewrite call_eq.
  reflexivity.
Qed.

(** C7. When the service is missing and the delete call of the cluster
    client answers with its not-found error, destroyService drops that
    answer: it has made the one delete call, the cluster is as that call
    left it, and it returns nil. The same holds, on its own, for
    destroyVolume and a missing volume claim. *)
Theorem teardown_suppresses_not_found (i : Inst) (w : Wld) :
  (forall notFound,
     fst (on_DeleteService P (Namespace P) (k8sName i) (cluster w)) = Some notFound ->
     fst (destroyService P i w) = Val None
     /\ calls (snd (destroyService P i w))
        = (calls w ++ [DeleteService (Namespace P) (k8sName i)])%list
     /\ cluster (snd (destroyService P i w))
        = snd (on_DeleteService P (Namespace P) (k8sName i) (cluster w)))
  /\ (forall notFound,
        fst (on_DeletePersistentVolumeClaim P (Namespace P) (k8sName i) (cluster w))
        = Some notFound ->
        fst (destroyVolume P i w) = Val None
        /\ calls (snd (destroyVolume P i w))
           = (calls w ++ [DeletePersistentVolumeClaim (Namespace P) (k8sName i)])%list
        /\ cluster (snd (destroyVolume P i w))
           = snd (on_DeletePersistentVolumeClaim P (Namespace P) (k8sName i) (cluster w))).
Proof.
  split; intros notFound _.
  - rewrite destroyService_eq. repeat split.
  - rewrite destroyVolume_eq. repeat split.
Qed.

(** C10. Whatever the delete call answers, destroyService and
    destroyVolume return nil: the answer of the cluster client never
    reaches the caller. *)
Theorem teardown_always_returns_nil (i : Inst) (w : Wld) :
  fst (destroyService P i w) = Val None /\ fst (destroyVolume P i w) = Val None.
Proof. rewrite destroyService_eq, destroyVolume_eq. split; reflexivity. Qed.

Lemma destroyPod_eq (i : Inst) (w : Wld) :
  destroyPod P i w =
  (Val match fst (on_DeleteStatefulSetWithGracePeriod P (Namespace P) (k8sName i)
                    (Some 0%Z) (cluster w)) with
       | Some e => Some (Errorf_v "failed to delete pod: " e)
       | None => None
       end,
   after w (DeleteStatefulSetWithGracePeriod (Namespace P) (k8sName i) (Some 0%Z))
     (snd (on_DeleteStatefulSetWithGracePeriod P (Namespace P) (k8sName i)
             (Some 0%Z) (cluster w)))).
Proof.
  unfold destroyPod, k8s_DeleteStatefulSetWithGracePeriod, bind. rewrite call_eq.
  destruct (fst _); reflexivity.
Qed.

(** C8. destroyPod makes one delete call for the workload, with a grace
    period of zero seconds; the cluster afterwards is the cluster as that
    call left it. Every error that call answers with comes back to the
    caller as an error (failed to delete pod); destroyPod returns nil
    only when the delete call does. *)
Theorem destroyPod_zero_grace_and_propagates (i : Inst) (w : Wld) :
  calls (snd (destroyPod P i w))
  = (calls w ++ [DeleteStatefulSetWithGracePeriod (Namespace P) (k8sName i) (Some 0%Z)])%list
  /\ cluster (snd (destroyPod P i w))
     = snd (on_DeleteStatefulSetWithGracePeriod P (Namespace P) (k8sName i)
              (Some 0%Z) (cluster w))
  /\ heap (snd (destroyPod P i w)) = heap w
  /\ (forall e,
        fst (on_DeleteStatefulSetWithGracePeriod P (Namespace P) (k8sName i)
               (Some 0%Z) (cluster w)) = Some e ->
        fst (destroyPod P i w)
        = Val (Some (New ("failed to delete pod: " +:+ Error e))))
  /\ (fst (destroyPod P i w) = Val None <->
      fst (on_DeleteStatefulSetWithGracePeriod P (Namespace P) (k8sName i)
             (Some 0%Z) (cluster w)) = None).
Proof.
  rewrite destroyPod_eq. cbn [fst snd after calls cluster heap].
  split; [reflexivity |]. split; [reflexivity |]. split; [reflexivity |]. split.
  - intros e ->. reflexivity.
  - destruct (fst _); split; intros H; try reflexivity; discriminate.
Qed.

(** *** deployVolume *)

Lemma addSizes_parsed (vs : list Volume) (qs : list Quantity) (acc : Quantity) :
  Forall2 (fun v q => ParseQuantity (Size v) = Some q) vs qs ->
  addSizes ParseQuantity acc vs = Val (acc + foldr Z.add 0%Z qs)%Z.
Proof.
  intros H. revert acc.
  induction H as [| v q vs qs Hv _ IH]; intros acc; cbn [addSizes foldr].
  - f_equal. lia.
  - unfold MustParse. rewrite Hv, IH. f_equal. lia.
Qed.

Lemma addSizes_unparsed (vs : list Volume) (acc : Quantity) :
  Exists (fun v => ParseQuantity (Size v) = None) vs ->
  exists msg, addSizes ParseQuantity acc vs = Panic msg.
Proof.
  intros H. revert acc.
  induction H as [v vs Hv | v vs _ IH]; intros acc; cbn [addSizes]; unfold MustParse.
  - rewrite Hv. eauto.
  - destruct (ParseQuantity (Size v)); eauto.
Qed.

Lemma deployVolume_eq (i : Inst) (w : Wld) :
  deployVolume TypeString identifier startTime ParseQuantity P i w =
  match addSizes ParseQuantity 0%Z (vols (heap w) (volumes i)) with
  | Val size =>
      (Val None,
       after w (DeployPersistentVolumeClaim (Namespace P) (k8sName i)
                  (getLabels TypeString identifier startTime i) size)
         (snd (on_DeployPersistentVolumeClaim P (Namespace P) (k8sName i)
                 (getLabels TypeString identifier startTime i) size (cluster w))))
  | Panic msg => (Panic msg, w)
  end.
Proof.
  unfold deployVolume, k8s_DeployPersistentVolumeClaim, bind, read.
  destruct (addSizes _ _ _); [rewrite call_eq |]; reflexivity.
Qed.

Lemma deployVolume_parsed (i : Inst) (w : Wld) (qs : list Quantity) :
  Forall2 (fun v q => ParseQuantity (Size v) = Some q) (vols (heap w) (volumes i)) qs ->
  deployVolume TypeString identifier startTime ParseQuantity P i w =
  (Val None,
   after w (DeployPersistentVolumeClaim (Namespace P) (k8sName i)
              (getLabels TypeString identifier startTime i) (foldr Z.add 0%Z qs))
     (snd (on_DeployPersistentVolumeClaim P (Namespace P) (k8sName i)
             (getLabels TypeString identifier startTime i) (foldr Z.add 0%Z qs)
             (cluster w)))).
Proof.
  intros H. rewrite deployVolume_eq, (addSizes_parsed _ _ _ H). reflexivity.
Qed.

(** C4. When every declared size parses, deployVolume makes exactly one
    call for a persistent volume claim: its capacity is the sum of the
    parsed sizes and its labels are the labels of the instance. *)
Theorem deployVolume_requests_one_claim_of_the_sum
    (i : Inst) (w : Wld) (qs : list Quantity) :
  Forall2 (fun v q => ParseQuantity (Size v) = Some q) (vols (heap w) (volumes i)) qs ->
  fst (deployVolume TypeString identifier startTime ParseQuantity P i w) = Val None
  /\ calls (snd (deployVolume TypeString identifier startTime ParseQuantity P i w))
     = (calls w ++ [DeployPersistentVolumeClaim (Namespace P) (k8sName i)
                      (getLabels TypeString identifier startTime i)
                      (foldr Z.add 0%Z qs)])%list.
Proof.
  intros H. rewrite (deployVolume_parsed _ _ _ H). split; reflexivity.
Qed.

(** C3, as amended. deployVolume never returns an error. When every
    declared size parses it makes the call for the claim and returns nil,
    whatever that call answers; when some declared size does not parse it
    panics, and no call for a claim has been made. *)
Theorem deployVolume_returns_nil_or_panics (i : Inst) (w : Wld) :
  (Forall (fun v => is_Some (ParseQuantity (Size v))) (vols (heap w) (volumes i)) ->
   fst (deployVolume TypeString identifier startTime ParseQuantity P i w) = Val None
   /\ exists size,
        calls (snd (deployVolume TypeString identifier startTime ParseQuantity P i w))
        = (calls w ++ [DeployPersistentVolumeClaim (Namespace P) (k8sName i)
                         (getLabels TypeString identifier startTime i) size])%list)
  /\ (Exists (fun v => ParseQuantity (Size v) = None) (vols (heap w) (volumes i)) ->
      exists msg,
        deployVolume TypeString identifier startTime ParseQuantity P i w = (Panic msg, w))
  /\ (forall e,
        fst (deployVolume TypeString identifier startTime ParseQuantity P i w)
        <> Val (Some e)).
Proof.
  split; [| split].
  - intros H.
    assert (exists qs, Forall2 (fun v q => ParseQuantity (Size v) = Some q)
                         (vols (heap w) (volumes i)) qs) as [qs Hqs].
    { induction H as [| v vs [q Hq] _ [qs IH]].
      - exists []. constructor.
      - exists (q :: qs). constructor; assumption. }
    rewrite (deployVolume_parsed _ _ _ Hqs). split; [reflexivity | eexists; reflexivity].
  - intros H. rewrite deployVolume_eq.
    destruct (addSizes_unparsed _ 0%Z H) as [msg ->]. eauto.
  - intros e. rewrite deployVolume_eq.
    destruct (addSizes _ _ _); cbn; discriminate.
Qed.

(** *** getImageRegistry and deployPod *)

Lemma getImageRegistry_set (i : Inst) (w : Wld) :
  imageName i <> "" ->
  getImageRegistry P i w = (Val (imageName i, None), w).
Proof.
  intros H. unfold getImageRegistry.
  destruct (String.eqb_spec (imageName i) "") as [E | _]; [contradiction | reflexivity].
Qed.

Lemma getImageRegistry_unset (i : Inst) (w : Wld) :
  imageName i = "" ->
  getImageRegistry P i w =
  (Val match snd (fst (on_NewRandom P (cluster w))) with
       | Some e => ("", Some (Errorf_w "error generating UUID: " e))
       | None => ("ttl.sh/" +:+ fst (fst (on_NewRandom P (cluster w))) +:+ ":1h", None)
       end,
   after w NewRandom (snd (on_NewRandom P (cluster w)))).
Proof.
  intros H. unfold getImageRegistry, uuid_NewRandom, bind. rewrite H. cbn [String.eqb negb].
  rewrite call_eq. destruct (fst (on_NewRandom P (cluster w))) as [u [e |]]; reflexivity.
Qed.

(** deployPod, once the image is resolved: one call that deploys a
    workload running that image; the instance keeps its imageName. *)
Lemma deployPod_resolved (i : Inst) (w w1 : Wld) (image : string) :
  getImageRegistry P i w = (Val (image, None), w1) ->
  exists i1 r1 cfg c1,
    deployPod TypeString identifier startTime P i w
    = (Val (i1, r1), after w1 (DeployStatefulSet cfg true) c1)
    /\ pc_Image (sc_PodConfig cfg) = image
    /\ sc_Name cfg = k8sName i
    /\ imageName i1 = imageName i.
Proof.
  intros H. unfold deployPod, bind. rewrite H. unfold read, k8s_DeployStatefulSet.
  rewrite call_eq.
  match goal with
  | |- context [on_DeployStatefulSet P ?cfg true (cluster w1)] =>
      destruct (fst (on_DeployStatefulSet P cfg true (cluster w1))) as [ss [e |]];
      do 2 eexists; exists cfg; eexists; (split; [reflexivity |]); repeat split
  end.
Qed.

(** C6, as amended. getImageRegistry returns the imageName of the
    instance whenever it is not empty, without a call to the random
    source, and two pod deployments in a row of such an instance deploy
    that same image. With an empty imageName each call draws a new random
    identifier and answers ttl.sh/<uuid>:1h; neither getImageRegistry nor
    deployPod stores it, so the imageName of the instance stays empty:
    each pod deployment draws its own identifier and deploys the workload
    with the reference made from it, the second deployment with the
    identifier the random source gives at that moment. *)
Theorem image_reference_stable_when_set (i : Inst) (w : Wld) :
  (imageName i <> "" ->
   getImageRegistry P i w = (Val (imageName i, None), w)
   /\ exists i1 r1 w1 i2 r2 w2 c1 c2,
        deployPod TypeString identifier startTime P i w = (Val (i1, r1), w1)
        /\ deployPod TypeString identifier startTime P i1 w1 = (Val (i2, r2), w2)
        /\ calls w2 = (calls w ++ [c1; c2])%list
        /\ image_of c1 = Some (imageName i)
        /\ image_of c2 = Some (imageName i)
        /\ imageName i2 = imageName i)
  /\ (imageName i = "" ->
      forall u c',
        on_NewRandom P (cluster w) = ((u, None), c') ->
        getImageRegistry P i w
        = (Val ("ttl.sh/" +:+ u +:+ ":1h", None), after w NewRandom c')
        /\ exists i1 r1 w1 d1,
             deployPod TypeString identifier startTime P i w = (Val (i1, r1), w1)
             /\ calls w1 = (calls w ++ [NewRandom; d1])%list
             /\ image_of d1 = Some ("ttl.sh/" +:+ u +:+ ":1h")
             /\ imageName i1 = ""
             /\ forall u2 c2',
                  on_NewRandom P (cluster w1) = ((u2, None), c2') ->
                  exists i2 r2 w2 d2,
                    deployPod TypeString identifier startTime P i1 w1 = (Val (i2, r2), w2)
                    /\ calls w2 = (calls w ++ [NewRandom; d1; NewRandom; d2])%list
                    /\ image_of d2 = Some ("ttl.sh/" +:+ u2 +:+ ":1h")
                    /\ imageName i2 = "").
Proof.
  split.
  - intros H. split; [apply getImageRegistry_set; exact H |].
    destruct (deployPod_resolved i w w (imageName i) (getImageRegistry_set i w H))
      as (i1 & r1 & cfg1 & c1 & E1 & Himg1 & _ & Hn1).
    assert (imageName i1 <> "") as H1 by (rewrite Hn1; exact H).
    destruct (deployPod_resolved i1 _ _ (imageName i1)
                (getImageRegistry_set i1 (after w (DeployStatefulSet cfg1 true) c1) H1))
      as (i2 & r2 & cfg2 & c2 & E2 & Himg2 & _ & Hn2).
    exists i1, r1, (after w (DeployStatefulSet cfg1 true) c1), i2, r2,
      (after (after w (DeployStatefulSet cfg1 true) c1) (DeployStatefulSet cfg2 true) c2),
      (DeployStatefulSet cfg1 true), (DeployStatefulSet cfg2 true).
    split; [exact E1 |]. split; [exact E2 |].
    cbn [after calls image_of]. rewrite <- app_assoc.
    repeat split; congruence.
  - intros H u c' Hu.
    assert (getImageRegistry P i w
            = (Val ("ttl.sh/" +:+ u +:+ ":1h", None), after w NewRandom c')) as E.
    { rewrite (getImageRegistry_unset i w H), Hu. reflexivity. }
    split; [exact E |].
    destruct (deployPod_resolved i w _ _ E) as (i1 & r1 & cfg1 & c1 & E1 & Himg1 & _ & Hn1).
    exists i1, r1, (after (after w NewRandom c') (DeployStatefulSet cfg1 true) c1),
      (DeployStatefulSet cfg1 true).
    split; [exact E1 |].
    split; [cbn [after calls]; rewrite <- app_assoc; reflexivity |].
    split; [cbn [image_of]; rewrite Himg1; reflexivity |].
    assert (imageName i1 = "") as H1 by congruence.
    split; [exact H1 |].
    intros u2 c2' Hu2.
    assert (getImageRegistry P i1
              (after (after w NewRandom c') (DeployStatefulSet cfg1 true) c1)
            = (Val ("ttl.sh/" +:+ u2 +:+ ":1h", None),
               after (after (after w NewRandom c') (DeployStatefulSet cfg1 true) c1)
                 NewRandom c2')) as E2.
    { rewrite (getImageRegistry_unset i1 _ H1), Hu2. reflexivity. }
    destruct (deployPod_resolved i1 _ _ _ E2)
      as (i2 & r2 & cfg2 & c2 & E3 & Himg2 & _ & Hn2).
    exists i2, r2,
      (after (after (after (after w NewRandom c') (DeployStatefulSet cfg1 true) c1)
                NewRandom c2') (DeployStatefulSet cfg2 true) c2),
      (DeployStatefulSet cfg2 true).
    split; [exact E3 |].
    split; [cbn [after calls]; rewrite <- !app_assoc; reflexivity |].
    split; [cbn [image_of]; rewrite Himg2; reflexivity | congruence].
Qed.

(** *** patchService and deployService *)

Lemma k8s_PatchService_eq (ns nm : string) (l s : gmap string string)
    (tcp udp : slice) (w : Wld) :
  k8s_PatchService P ns nm l s tcp udp w =
  (Val (fst (on_PatchService P ns nm l s (ints (heap w) tcp) (ints (heap w) udp) (cluster w))),
   after w (PatchService ns nm l s (ints (heap w) tcp) (ints (heap w) udp))
     (snd (on_PatchService P ns nm l s (ints (heap w) tcp) (ints (heap w) udp) (cluster w)))).
Proof. unfold k8s_PatchService, bind, read. apply call_eq. Qed.

Lemma k8s_DeployService_eq (ns nm : string) (l s : gmap string string)
    (tcp udp : slice) (w : Wld) :
  k8s_DeployService P ns nm l s tcp udp w =
  (Val (fst (on_DeployService P ns nm l s (ints (heap w) tcp) (ints (heap w) udp) (cluster w))),
   after w (DeployService ns nm l s (ints (heap w) tcp) (ints (heap w) udp))
     (snd (on_DeployService P ns nm l s (ints (heap w) tcp) (ints (heap w) udp) (cluster w)))).
Proof. unfold k8s_DeployService, bind, read. apply call_eq. Qed.

Lemma patchService_cached (i : Inst) (w : Wld) (s : Service) :
  kubernetesService i = Some s ->
  patchService P i w =
  (Val (i, match fst (on_PatchService P (Namespace P) (k8sName i) (Labels (Meta s))
                        (Selector (Spec s)) (ints (heap w) (portsTCP i))
                        (ints (heap w) (portsUDP i)) (cluster w)) with
           | Some e =>
               Some (Errorf_w ("error patching service '" +:+ k8sName i +:+ "': ") e)
           | None => None
           end),
   after w (PatchService (Namespace P) (k8sName i) (Labels (Meta s)) (Selector (Spec s))
              (ints (heap w) (portsTCP i)) (ints (heap w) (portsUDP i)))
     (snd (on_PatchService P (Namespace P) (k8sName i) (Labels (Meta s))
             (Selector (Spec s)) (ints (heap w) (portsTCP i))
             (ints (heap w) (portsUDP i)) (cluster w)))).
Proof.
  intros H. unfold patchService, bind. rewrite H. cbn [ret]. rewrite H.
  rewrite k8s_PatchService_eq. destruct (fst _); reflexivity.
Qed.

Lemma patchService_lookup_error (i : Inst) (w : Wld) (svc : option Service)
    (e : error) (c1 : C) :
  kubernetesService i = None ->
  on_GetService P (Namespace P) (k8sName i) (cluster w) = ((svc, Some e), c1) ->
  patchService P i w =
  (Val (i, Some (Errorf_w ("error getting service '" +:+ k8sName i +:+ "': ") e)),
   after w (GetService (Namespace P) (k8sName i)) c1).
Proof.
  intros H G. unfold patchService, bind, k8s_GetService. rewrite H, call_eq, G.
  reflexivity.
Qed.

Lemma patchService_fetched (i : Inst) (w : Wld) (s : Service) (c1 : C) :
  kubernetesService i = None ->
  on_GetService P (Namespace P) (k8sName i) (cluster w) = ((Some s, None), c1) ->
  patchService P i w =
  patchService P (set_kubernetesService i (Some s))
    (after w (GetService (Namespace P) (k8sName i)) c1).
Proof.
  intros H G.
  rewrite (patchService_cached (set_kubernetesService i (Some s)) _ s eq_refl).
  unfold patchService, bind, k8s_GetService. rewrite H, call_eq, G.
  cbn [fst snd ret kubernetesService set_kubernetesService].
  rewrite k8s_PatchService_eq.
  cbn [k8sName portsTCP portsUDP set_kubernetesService].
  destruct (fst _); reflexivity.
Qed.

(** C2, as amended. patchService hands to the patch call the labels and
    the selector of the service handle it holds (the cached one, or the
    one it has just fetched), together with the ports declared on the
    instance; it returns nil exactly when the patch call does. With no
    cached handle and a failing fetch it returns the lookup error (error
    getting service) and makes no patch call. *)
Theorem patchService_passes_handle_labels_and_declared_ports (i : Inst) (w : Wld) :
  (forall s,
     kubernetesService i = Some s ->
     calls (snd (patchService P i w))
     = (calls w ++ [PatchService (Namespace P) (k8sName i) (Labels (Meta s))
                      (Selector (Spec s)) (ints (heap w) (portsTCP i))
                      (ints (heap w) (portsUDP i))])%list
     /\ (fst (patchService P i w) = Val (i, None) <->
         fst (on_PatchService P (Namespace P) (k8sName i) (Labels (Meta s))
                (Selector (Spec s)) (ints (heap w) (portsTCP i))
                (ints (heap w) (portsUDP i)) (cluster w)) = None))
  /\ (forall s c1,
        kubernetesService i = None ->
        on_GetService P (Namespace P) (k8sName i) (cluster w) = ((Some s, None), c1) ->
        calls (snd (patchService P i w))
        = (calls w ++ [GetService (Namespace P) (k8sName i);
                       PatchService (Namespace P) (k8sName i) (Labels (Meta s))
                         (Selector (Spec s)) (ints (heap w) (portsTCP i))
                         (ints (heap w) (portsUDP i))])%list)
  /\ (forall svc e c1,
        kubernetesService i = None ->
        on_GetService P (Namespace P) (k8sName i) (cluster w) = ((svc, Some e), c1) ->
        fst (patchService P i w)
        = Val (i, Some (Errorf_w ("error getting service '" +:+ k8sName i +:+ "': ") e))
        /\ calls (snd (patchService P i w))
           = (calls w ++ [GetService (Namespace P) (k8sName i)])%list).
Proof.
  split; [| split].
  - intros s H. rewrite (patchService_cached i w s H). cbn [fst snd after calls].
    split; [reflexivity |].
    destruct (fst _); split; intros E; try reflexivity; discriminate.
  - intros s c1 H G. rewrite (patchService_fetched i w s c1 H G).
    rewrite (patchService_cached (set_kubernetesService i (Some s)) _ s eq_refl).
    cbn [fst snd after calls heap k8sName portsTCP portsUDP set_kubernetesService].
    rewrite <- app_assoc. reflexivity.
  - intros svc e c1 H G. rewrite (patchService_lookup_error i w svc e c1 H G).
    split; reflexivity.
Qed.

Lemma deployService_create_eq (i : Inst) (w : Wld) :
  deployService_create TypeString identifier startTime P i w =
  (Val match fst (on_DeployService P (Namespace P) (k8sName i)
                    (getLabels TypeString identifier startTime i)
                    (getLabels TypeString identifier startTime i)
                    (ints (heap w) (portsTCP i)) (ints (heap w) (portsUDP i))
                    (cluster w)) with
       | (_, Some e) =>
           (i, Some (Errorf_w ("error deploying service '" +:+ k8sName i +:+ "': ") e))
       | (service, None) => (set_kubernetesService i service, None)
       end,
   after w (DeployService (Namespace P) (k8sName i)
              (getLabels TypeString identifier startTime i)
              (getLabels TypeString identifier startTime i)
              (ints (heap w) (portsTCP i)) (ints (heap w) (portsUDP i)))
     (snd (on_DeployService P (Namespace P) (k8sName i)
             (getLabels TypeString identifier startTime i)
             (getLabels TypeString identifier startTime i)
             (ints (heap w) (portsTCP i)) (ints (heap w) (portsUDP i))
             (cluster w)))).
Proof.
  unfold deployService_create, bind. rewrite k8s_DeployService_eq.
  destruct (fst _) as [service [e |]]; reflexivity.
Qed.

(** C1, on the code. When the lookup finds the service and the patch of
    it succeeds, deployService does not stop there: it goes on to the
    creation call for the same name, and an error of that call (the
    service exists) is what deployService returns. *)
Theorem deployService_creates_again_after_patch
    (i : Inst) (w : Wld) (found s : Service) (ignored : option error) (c1 c2 : C) :
  on_GetService P (Namespace P) (k8sName i) (cluster w) = ((Some found, ignored), c1) ->
  kubernetesService i = Some s ->
  on_PatchService P (Namespace P) (k8sName i) (Labels (Meta s)) (Selector (Spec s))
    (ints (heap w) (portsTCP i)) (ints (heap w) (portsUDP i)) c1 = (None, c2) ->
  calls (snd (deployService TypeString identifier startTime P i w))
  = (calls w ++ [GetService (Namespace P) (k8sName i);
                 PatchService (Namespace P) (k8sName i) (Labels (Meta s))
                   (Selector (Spec s)) (ints (heap w) (portsTCP i))
                   (ints (heap w) (portsUDP i));
                 DeployService (Namespace P) (k8sName i)
                   (getLabels TypeString identifier startTime i)
                   (getLabels TypeString identifier startTime i)
                   (ints (heap w) (portsTCP i)) (ints (heap w) (portsUDP i))])%list
  /\ (forall service e c3,
        on_DeployService P (Namespace P) (k8sName i)
          (getLabels TypeString identifier startTime i)
          (getLabels TypeString identifier startTime i)
          (ints (heap w) (portsTCP i)) (ints (heap w) (portsUDP i)) c2
        = ((service, Some e), c3) ->
        fst (deployService TypeString identifier startTime P i w)
        = Val (i, Some (Errorf_w ("error deploying service '" +:+ k8sName i +:+ "': ") e))).
Proof.
  intros G H Hp.
  assert (deployService TypeString identifier startTime P i w
          = deployService_create TypeString identifier startTime P i
              (after (after w (GetService (Namespace P) (k8sName i)) c1)
                 (PatchService (Namespace P) (k8sName i) (Labels (Meta s))
                    (Selector (Spec s)) (ints (heap w) (portsTCP i))
                    (ints (heap w) (portsUDP i))) c2)) as E.
  { unfold deployService, bind, k8s_GetService. rewrite call_eq, G. cbn [fst snd].
    rewrite (patchService_cached i _ s H). cbn [after heap cluster].
    rewrite Hp. reflexivity. }
  rewrite E, deployService_create_eq. cbn [fst snd after calls heap cluster].
  split.
  - rewrite <- !app_assoc. reflexivity.
  - intros service e c3 D. rewrite D. reflexivity.
Qed.

(** *** cloneWithSuffix *)

Lemma store_int_seen (s : slice) (idx : nat) (v : Z) (w : Wld) (xs : list Z) :
  (idx < s_len s)%nat ->
  heap w !! s_arr s = Some (IntArr xs) ->
  exists w',
    store_int s idx v w = (Val tt, w')
    /\ ints (heap w') s = <[idx := v]> (ints (heap w) s).
Proof.
  intros Hlt Hxs. unfold store_int.
  destruct (Nat.ltb_spec idx (s_len s)) as [_ | Hge]; [| lia].
  rewrite Hxs. eexists. split; [reflexivity |].
  unfold ints. cbn [heap]. rewrite lookup_insert_eq, Hxs.
  apply take_insert_lt. exact Hlt.
Qed.

(** C5, as amended. The clone has the name and the cluster name of the
    original with the suffix appended. Its slices and its map are the
    slice headers and the map reference of the original, not copies: a
    store through the portsTCP of the clone is read through the portsTCP
    of the original, and a store through the original's is read through
    the clone's. *)
Theorem clone_appends_suffix_and_shares_ports (i : Inst) (suffix : string) :
  name (cloneWithSuffix i suffix) = name i +:+ suffix
  /\ k8sName (cloneWithSuffix i suffix) = k8sName i +:+ suffix
  /\ portsTCP (cloneWithSuffix i suffix) = portsTCP i
  /\ portsUDP (cloneWithSuffix i suffix) = portsUDP i
  /\ command (cloneWithSuffix i suffix) = command i
  /\ args (cloneWithSuffix i suffix) = args i
  /\ env (cloneWithSuffix i suffix) = env i
  /\ volumes (cloneWithSuffix i suffix) = volumes i
  /\ (forall (w : Wld) (idx : nat) (v : Z) (xs : list Z),
        (idx < s_len (portsTCP i))%nat ->
        heap w !! s_arr (portsTCP i) = Some (IntArr xs) ->
        (exists w',
           store_int (portsTCP (cloneWithSuffix i suffix)) idx v w = (Val tt, w')
           /\ ints (heap w') (portsTCP i) = <[idx := v]> (ints (heap w) (portsTCP i)))
        /\ (exists w',
              store_int (portsTCP i) idx v w = (Val tt, w')
              /\ ints (heap w') (portsTCP (cloneWithSuffix i suffix))
                 = <[idx := v]> (ints (heap w) (portsTCP (cloneWithSuffix i suffix))))).
Proof.
  repeat (split; [reflexivity |]).
  intros w idx v xs Hlt Hxs. cbn [cloneWithSuffix portsTCP].
  split; apply (store_int_seen _ _ _ _ xs Hlt Hxs).
Qed.

End HelperFacts.

(** ** The helper on the reference platform *)

Section OnReference.

Import Ref.

Local Abbreviation deployService' :=
  (deployService typeString runId started platform).
Local Abbreviation deployPod' := (deployPod typeString runId started platform).
Local Abbreviation deployVolume' :=
  (deployVolume typeString runId started parseQuantity platform).
Local Abbreviation labels' := (getLabels typeString runId started).

Example parse_1Gi : parseQuantity "1Gi" = Some (2 ^ 30)%Z.
Proof. reflexivity. Qed.

Example parse_3Gi : parseQuantity "3Gi" = Some (3 * 2 ^ 30)%Z.
Proof. reflexivity. Qed.

Example parse_lots : parseQuantity "lots" = None.
Proof. reflexivity. Qed.

(** The first deployService of web, on a cluster without its service,
    creates the service and stores the handle. *)
Example deployService_first :
  deployService' web world0 = (Val (webDeployed, None), world1).
Proof. vm_compute. reflexivity. Qed.

(** The second deployService finds the service, patches it, and then
    fails on the creation of the service that exists. *)
Example deployService_second :
  fst (deployService' webDeployed world1)
  = Val (webDeployed,
         Some (Errorf_w "error deploying service 'web-1a2b3c4d': "
                 (AlreadyExists "service" "web-1a2b3c4d")))
  /\ calls (snd (deployService' webDeployed world1))
     = (calls world1 ++
        [GetService "test" "web-1a2b3c4d";
         PatchService "test" "web-1a2b3c4d" (labels' web) (labels' web) [8080%Z] [];
         DeployService "test" "web-1a2b3c4d" (labels' web) (labels' web) [8080%Z] []])%list.
Proof. vm_compute. split; reflexivity. Qed.

Lemma deployService_creates_again_after_patch_witness :
  calls (snd (deployService' webDeployed world1))
  = (calls world1 ++
     [GetService "test" "web-1a2b3c4d";
      PatchService "test" "web-1a2b3c4d" (labels' web) (labels' web) [8080%Z] [];
      DeployService "test" "web-1a2b3c4d" (labels' web) (labels' web) [8080%Z] []])%list
  /\ fst (deployService' webDeployed world1)
     = Val (webDeployed,
            Some (Errorf_w "error deploying service 'web-1a2b3c4d': "
                    (AlreadyExists "service" "web-1a2b3c4d"))).
Proof.
  destruct (deployService_creates_again_after_patch typeString runId started platform
              webDeployed world1 webService webService None
              (cluster world1) (cluster world1))
    as [Hcalls Herr]; [reflexivity | reflexivity | reflexivity |].
  split.
  - exact Hcalls.
  - apply (Herr None (AlreadyExists "service" "web-1a2b3c4d") (cluster world1)).
    reflexivity.
Defined.

(** patchService of web in the world where its service has other labels:
    the patch call gets the labels of the fetched service, which lack the
    name label that the label derivation of web gives. *)
Lemma patchService_keeps_labels_of_existing_service :
  fst (patchService platform web worldLegacy)
  = Val (set_kubernetesService web (Some (mkSvc legacyLabels legacyLabels [80%Z] [])), None)
  /\ calls (snd (patchService platform web worldLegacy))
     = [GetService "test" "web-1a2b3c4d";
        PatchService "test" "web-1a2b3c4d" legacyLabels legacyLabels [8080%Z] []]
  /\ services (cluster (snd (patchService platform web worldLegacy))) !! "web-1a2b3c4d"
     = Some (mkSvc legacyLabels legacyLabels [8080%Z] [])
  /\ labels' web !! "name" = Some "web"
  /\ legacyLabels !! "name" = None.
Proof. vm_compute. repeat split; reflexivity. Qed.

Lemma patchService_passes_handle_labels_and_declared_ports_witness :
  calls (snd (patchService platform webDeployed world1))
  = (calls world1 ++
     [PatchService "test" "web-1a2b3c4d" (labels' web) (labels' web) [8080%Z] []])%list
  /\ fst (patchService platform web world0)
     = Val (web, Some (Errorf_w "error getting service 'web-1a2b3c4d': "
                         (NotFound "service" "web-1a2b3c4d"))).
Proof.
  split.
  - apply (proj1 (patchService_passes_handle_labels_and_declared_ports platform
                    webDeployed world1) webService).
    reflexivity.
  - apply (proj2 (proj2 (patchService_passes_handle_labels_and_declared_ports platform
                           web world0))
             None (NotFound "service" "web-1a2b3c4d") emptyCluster);
      reflexivity.
Defined.

(** deployVolume of web: one claim of 1Gi; after a second volume of 2Gi,
    one claim of 3Gi. *)
Example deployVolume_1Gi :
  deployVolume' web world0
  = (Val None,
     after world0 (DeployPersistentVolumeClaim "test" "web-1a2b3c4d" (labels' web)
                     (2 ^ 30)%Z)
       (with_claims emptyCluster {[ "web-1a2b3c4d" := (labels' web, (2 ^ 30)%Z) ]})).
Proof. vm_compute. reflexivity. Qed.

Lemma deployVolume_requests_one_claim_of_the_sum_witness :
  Forall2 (fun v q => parseQuantity (Size v) = Some q)
    (vols (heap worldTwoVolumes) (volumes webTwoVolumes)) [(2 ^ 30)%Z; (2 * 2 ^ 30)%Z]
  /\ fst (deployVolume' webTwoVolumes worldTwoVolumes) = Val None
  /\ calls (snd (deployVolume' webTwoVolumes worldTwoVolumes))
     = (calls worldTwoVolumes ++
        [DeployPersistentVolumeClaim "test" "web-1a2b3c4d" (labels' webTwoVolumes)
           (foldr Z.add 0%Z [(2 ^ 30)%Z; (2 * 2 ^ 30)%Z])])%list.
Proof.
  assert (Forall2 (fun v q => parseQuantity (Size v) = Some q)
            (vols (heap worldTwoVolumes) (volumes webTwoVolumes))
            [(2 ^ 30)%Z; (2 * 2 ^ 30)%Z]) as H.
  { repeat constructor. }
  split; [exact H |].
  apply (deployVolume_requests_one_claim_of_the_sum typeString runId started
           parseQuantity platform webTwoVolumes worldTwoVolumes _ H).
Defined.

Example deployVolume_3Gi :
  calls (snd (deployVolume' webTwoVolumes worldTwoVolumes))
  = [DeployPersistentVolumeClaim "test" "web-1a2b3c4d" (labels' web) (3 * 2 ^ 30)%Z].
Proof. vm_compute. reflexivity. Qed.

(** deployVolume of web panics on a size that is no quantity, and returns
    nil when the creation of the claim fails because the claim exists. *)
Lemma deployVolume_panics_or_hides_failure :
  (exists msg, deployVolume' web worldBadSize = (Panic msg, worldBadSize))
  /\ fst (createClaim "test" "web-1a2b3c4d" (labels' web) (2 ^ 30)%Z (cluster worldClaimed))
     = Some (AlreadyExists "persistentvolumeclaim" "web-1a2b3c4d")
  /\ fst (deployVolume' web worldClaimed) = Val None
  /\ calls (snd (deployVolume' web worldClaimed))
     = [DeployPersistentVolumeClaim "test" "web-1a2b3c4d" (labels' web) (2 ^ 30)%Z]
  /\ cluster (snd (deployVolume' web worldClaimed)) = cluster worldClaimed.
Proof.
  split; [eexists; vm_compute; reflexivity |].
  vm_compute. repeat split; reflexivity.
Qed.

(** Two deployPod in a row of web, whose imageName is empty: each draws
    its own identifier, and the two workloads run different images. *)
Lemma deployPod_twice_two_images :
  exists i1 w1 i2 w2,
    deployPod' web worldRandom = (Val (i1, None), w1)
    /\ deployPod' i1 w1 = (Val (i2, None), w2)
    /\ omap image_of (calls w2)
       = ["ttl.sh/0b9f5c1e-7a3d-4c1b-9a52-3f1d2e4a6b70:1h";
          "ttl.sh/f47ac10b-58cc-4372-a567-0e02b2c3d479:1h"]
    /\ imageName i2 = "".
Proof.
  do 4 eexists. split; [vm_compute; reflexivity |].
  split; [vm_compute; reflexivity |].
  split; vm_compute; reflexivity.
Qed.

Lemma image_reference_stable_when_set_witness :
  (getImageRegistry platform webWithImage world0 = (Val ("nginx:1.25", None), world0)
   /\ exists i1 r1 w1 i2 r2 w2 c1 c2,
        deployPod' webWithImage world0 = (Val (i1, r1), w1)
        /\ deployPod' i1 w1 = (Val (i2, r2), w2)
        /\ calls w2 = (calls world0 ++ [c1; c2])%list
        /\ image_of c1 = Some "nginx:1.25"
        /\ image_of c2 = Some "nginx:1.25"
        /\ imageName i2 = "nginx:1.25")
  /\ exists i1 r1 w1 d1,
       deployPod' web worldRandom = (Val (i1, r1), w1)
       /\ calls w1 = (calls worldRandom ++ [NewRandom; d1])%list
       /\ image_of d1
          = Some ("ttl.sh/" +:+ "0b9f5c1e-7a3d-4c1b-9a52-3f1d2e4a6b70" +:+ ":1h")
       /\ imageName i1 = "".
Proof.
  split.
  - apply (proj1 (image_reference_stable_when_set typeString runId started platform
                    webWithImage world0)).
    discriminate.
  - destruct (proj2 (image_reference_stable_when_set typeString runId started platform
                       web worldRandom)
                eq_refl "0b9f5c1e-7a3d-4c1b-9a52-3f1d2e4a6b70"
                {| services := ∅; workloads := ∅; claims := ∅;
                   uuids := ["f47ac10b-58cc-4372-a567-0e02b2c3d479"]; staged := [] |}
                eq_refl)
      as (_ & i1 & r1 & w1 & d1 & E & Hc & Himg & Hn & _).
    exists i1, r1, w1, d1. repeat split; assumption.
Defined.

(** destroyService of web where its service is missing but its claim
    exists, and destroyVolume of web on the empty cluster: the delete
    call answers not found, the helper returns nil. *)
Lemma teardown_suppresses_not_found_witness :
  (fst (deleteService "test" "web-1a2b3c4d" (cluster worldClaimed))
   = Some (NotFound "service" "web-1a2b3c4d")
   /\ fst (deleteClaim "test" "web-1a2b3c4d" (cluster worldClaimed)) = None
   /\ fst (destroyService platform web worldClaimed) = Val None
   /\ calls (snd (destroyService platform web worldClaimed))
      = (calls worldClaimed ++ [DeleteService "test" "web-1a2b3c4d"])%list
   /\ cluster (snd (destroyService platform web worldClaimed)) = cluster worldClaimed)
  /\ (fst (deleteClaim "test" "web-1a2b3c4d" emptyCluster)
      = Some (NotFound "persistentvolumeclaim" "web-1a2b3c4d")
      /\ fst (destroyVolume platform web world0) = Val None
      /\ calls (snd (destroyVolume platform web world0))
         = (calls world0 ++ [DeletePersistentVolumeClaim "test" "web-1a2b3c4d"])%list
      /\ cluster (snd (destroyVolume platform web world0)) = emptyCluster).
Proof.
  split.
  - split; [reflexivity |]. split; [reflexivity |].
    apply (proj1 (teardown_suppresses_not_found platform web worldClaimed)
             (NotFound "service" "web-1a2b3c4d")).
    reflexivity.
  - split; [reflexivity |].
    apply (proj2 (teardown_suppresses_not_found platform web world0)
             (NotFound "persistentvolumeclaim" "web-1a2b3c4d")).
    reflexivity.
Defined.

(** destroyPod of web on the empty cluster: the delete call answers not
    found, and destroyPod returns that failure. *)
Example destroyPod_missing_workload :
  destroyPod platform web world0
  = (Val (Some (New "failed to delete pod: statefulset 'web-1a2b3c4d' not found")),
     after world0 (DeleteStatefulSetWithGracePeriod "test" "web-1a2b3c4d" (Some 0%Z))
       emptyCluster).
Proof. vm_compute. reflexivity. Qed.

(** The three file-staging cases of section 8 of the specification. *)
Example stageFile_empty_src :
  validateFileArgs web "" "/dest" "u:g" = Some (New "src must be set").
Proof. reflexivity. Qed.

Example stageFile_no_colon :
  validateFileArgs web "/src" "/dest" "u"
  = Some (New "chown must be in format 'user:group'").
Proof. reflexivity. Qed.

Example stageFile_two_colons :
  validateFileArgs web "/src" "/dest" "u:g:x"
  = Some (New "chown must be in format 'user:group'").
Proof. reflexivity. Qed.

Example stageFile_valid :
  validateFileArgs web "/src" "/dest" "u:g" = None
  /\ addFileToBuilder platform web "/src" "/dest" "u:g" world0
     = (Val None,
        after world0 (AddToBuilder "/dest" "/dest" "u:g")
          {| services := ∅; workloads := ∅; claims := ∅; uuids := [];
             staged := [("/dest", "/dest", "u:g")] |}).
Proof. split; vm_compute; reflexivity. Qed.

(** A store through the portsTCP of the clone of web changes the port
    that web itself reads. *)
Lemma clone_store_changes_ports_of_original :
  ints (heap world0) (portsTCP web) = [8080%Z]
  /\ exists w',
       store_int (portsTCP (cloneWithSuffix web "-2")) 0 9090%Z world0 = (Val tt, w')
       /\ ints (heap w') (portsTCP web) = [9090%Z].
Proof.
  split; [reflexivity |]. eexists. split; vm_compute; reflexivity.
Qed.

(** The clone of api appends the port 9090 in the spare capacity it
    shares with api; when api then appends 7070, the clone reads 7070
    where it had put 9090. *)
Example clone_append_overwritten_by_original :
  exists s1 w1 s2 w2,
    append_int (portsTCP (cloneWithSuffix api "-2")) 9090%Z worldApi = (Val s1, w1)
    /\ ints (heap w1) s1 = [8080%Z; 8081%Z; 8082%Z; 9090%Z]
    /\ append_int (portsTCP api) 7070%Z w1 = (Val s2, w2)
    /\ ints (heap w2) s1 = [8080%Z; 8081%Z; 8082%Z; 7070%Z].
Proof.
  do 4 eexists. split; [vm_compute; reflexivity |].
  split; [vm_compute; reflexivity |].
  split; vm_compute; reflexivity.
Qed.

End OnReference.

(** ** Further facts: ports, labels, names *)

Lemma append_cons (c : ascii) (s t : string) :
  String c s +:+ t = String c (s +:+ t).
Proof. reflexivity. Qed.

Lemma append_assoc (s t u : string) : (s +:+ t) +:+ u = s +:+ (t +:+ u).
Proof.
  induction s as [| c s IH]; [reflexivity |].
  rewrite !append_cons, IH. reflexivity.
Qed.

Lemma append_length (s t : string) :
  String.length (s +:+ t) = String.length s + String.length t.
Proof.
  induction s as [| c s IH]; [reflexivity |].
  rewrite append_cons. cbn [String.length]. rewrite IH. reflexivity.
Qed.

Lemma append_same_l (s t : string) : s +:+ t = s <-> t = "".
Proof.
  split.
  - intros H. apply (f_equal String.length) in H. rewrite append_length in H.
    destruct t; [reflexivity | cbn [String.length] in H; lia].
  - intros ->. induction s as [| c s IH]; [reflexivity |].
    rewrite append_cons, IH. reflexivity.
Qed.

Lemma prefix_append (s t : string) : String.prefix s (s +:+ t) = true.
Proof.
  induction s as [| c s IH]; [destruct t; reflexivity |].
  rewrite append_cons. cbn [String.prefix].
  destruct (ascii_dec c c) as [_ | n]; [exact IH | contradiction].
Qed.

Lemma substring_length (n : nat) (s : string) :
  n <= String.length s -> String.length (String.substring 0 n s) = n.
Proof.
  revert s. induction n as [| n IH]; intros s H.
  - destruct s; reflexivity.
  - destruct s as [| c s]; cbn [String.length] in H; [lia |].
    cbn [String.substring String.length]. rewrite IH; [reflexivity | lia].
Qed.

Lemma occurrences_append (c : ascii) (s t : string) :
  occurrences c (s +:+ t) = occurrences c s + occurrences c t.
Proof.
  induction s as [| d s IH]; [reflexivity |].
  rewrite append_cons. cbn [occurrences]. rewrite IH. lia.
Qed.

Lemma rangeFinds_elem (ps : list Z) (port : Z) :
  rangeFinds ps port = true <-> port ∈ ps.
Proof.
  induction ps as [| p ps IH]; cbn [rangeFinds].
  - split; [discriminate | intros H; inversion H].
  - destruct (Z.eqb_spec p port) as [-> | Hne].
    + split; [intros _; left | reflexivity].
    + rewrite IH. split; [intros H; right; exact H |].
      intros H. inversion H; subst; [contradiction | assumption].
Qed.

Lemma finds_true_iff (ps : list Z) (port : Z) :
  Val (rangeFinds ps port) = Val true <-> port ∈ ps.
Proof.
  rewrite <- rangeFinds_elem. split; [intros [= H]; exact H | intros ->; reflexivity].
Qed.

Lemma finds_false_iff (ps : list Z) (port : Z) :
  Val (rangeFinds ps port) = Val false <-> port ∉ ps.
Proof.
  rewrite <- rangeFinds_elem. destruct (rangeFinds ps port); split.
  - discriminate.
  - intros H. exfalso. apply H. reflexivity.
  - intros _. discriminate.
  - reflexivity.
Qed.

Section HelperMore.

Context {InstanceType InstanceState StatefulSet BuilderFactory C : Type}.
Variable TypeString : InstanceType -> string.
Variables identifier startTime : string.
Variable ParseQuantity : string -> option Quantity.
Variable P : Platform StatefulSet BuilderFactory C.

Local Abbreviation Inst := (Instance InstanceType InstanceState StatefulSet BuilderFactory).
Local Abbreviation Wld := (World C).
Local Abbreviation labelsOf := (getLabels TypeString identifier startTime).

(** X1. validatePort accepts exactly the ports from 1 to 65535; every
    other port is refused with an error that names the port. *)
Theorem validatePort_accepts_1_to_65535 (port : Z) :
  (validatePort port = None <-> (1 <= port <= 65535)%Z)
  /\ (forall e, validatePort port = Some e ->
        Error e = "port number '" +:+ pretty port +:+ "' is out of range").
Proof.
  unfold validatePort.
  destruct (Z.ltb_spec port 1) as [Hlo | Hlo]; cbn [orb].
  - split; [split; [discriminate | lia] | intros e [= <-]; reflexivity].
  - rewrite Z.gtb_ltb. destruct (Z.ltb_spec 65535 port) as [Hhi | Hhi].
    + split; [split; [discriminate | lia] | intros e [= <-]; reflexivity].
    + split; [split; [lia | reflexivity] | discriminate].
Qed.

(** X2. isTCPPortRegistered and isUDPPortRegistered answer true exactly
    when the port is among the ports read through the slice of the
    instance, so false for an instance without ports; they change
    nothing. *)
Theorem port_registered_iff_declared (i : Inst) (port : Z) (w : Wld) :
  (fst (isTCPPortRegistered i port w) = Val true <->
   port ∈ ints (heap w) (portsTCP i))
  /\ (fst (isTCPPortRegistered i port w) = Val false <->
      port ∉ ints (heap w) (portsTCP i))
  /\ snd (isTCPPortRegistered i port w) = w
  /\ (fst (isUDPPortRegistered i port w) = Val true <->
      port ∈ ints (heap w) (portsUDP i))
  /\ (fst (isUDPPortRegistered i port w) = Val false <->
      port ∉ ints (heap w) (portsUDP i))
  /\ snd (isUDPPortRegistered i port w) = w.
Proof.
  unfold isTCPPortRegistered, isUDPPortRegistered, bind, read, ret. cbn [fst snd].
  repeat split; try (apply finds_true_iff); try (apply finds_false_iff);
    try (apply (proj1 (finds_true_iff _ _))); try (apply (proj2 (finds_true_iff _ _)));
    try (apply (proj1 (finds_false_iff _ _))); try (apply (proj2 (finds_false_iff _ _))).
Qed.

Lemma labels_eq_iff (i j : Inst) :
  labelsOf i = labelsOf j <->
  name i = name j /\ k8sName i = k8sName j
  /\ TypeString (instanceType i) = TypeString (instanceType j).
Proof.
  split.
  - intros H.
    assert (labelsOf i !! "name" = labelsOf j !! "name") as Hn by (rewrite H; reflexivity).
    assert (labelsOf i !! "k8s-name" = labelsOf j !! "k8s-name") as Hk
      by (rewrite H; reflexivity).
    assert (labelsOf i !! "type" = labelsOf j !! "type") as Ht by (rewrite H; reflexivity).
    unfold getLabels in Hn, Hk, Ht. simplify_map_eq. auto.
  - intros (Hn & Hk & Ht). unfold getLabels. rewrite Hn, Hk, Ht. reflexivity.
Qed.

(** X3. The labels identify the instance: two instances have the same
    labels exactly when they have the same name, the same cluster name
    and the same type string. *)
Theorem labels_equal_iff_same_identity (i j : Inst) :
  labelsOf i = labelsOf j <->
  name i = name j /\ k8sName i = k8sName j
  /\ TypeString (instanceType i) = TypeString (instanceType j).
Proof. apply labels_eq_iff. Qed.

(** X4. The labels of an instance are seven: the keys app,
    k8s.kubernetes.io/managed-by, test-run-id, test-started, name,
    k8s-name and type, whatever the instance; app and k8s-name both
    carry the cluster name. *)
Theorem labels_have_seven_fixed_keys (i : Inst) :
  dom (labelsOf i)
  = list_to_set ["app"; "k8s.kubernetes.io/managed-by"; "test-run-id";
                 "test-started"; "name"; "k8s-name"; "type"]
  /\ size (labelsOf i) = 7
  /\ labelsOf i !! "app" = Some (k8sName i)
  /\ labelsOf i !! "k8s-name" = Some (k8sName i)
  /\ labelsOf i !! "name" = Some (name i)
  /\ labelsOf i !! "k8s.kubernetes.io/managed-by" = Some "knuu"
  /\ labelsOf i !! "test-run-id" = Some identifier
  /\ labelsOf i !! "test-started" = Some startTime
  /\ labelsOf i !! "type" = Some (TypeString (instanceType i)).
Proof.
  assert (dom (labelsOf i)
          = list_to_set ["app"; "k8s.kubernetes.io/managed-by"; "test-run-id";
                         "test-started"; "name"; "k8s-name"; "type"]) as Hdom.
  { unfold getLabels. rewrite !dom_insert_L, dom_empty_L. cbn [list_to_set foldr].
    reflexivity. }
  split; [exact Hdom |]. split.
  - rewrite <- size_dom, Hdom. reflexivity.
  - unfold getLabels. repeat split; simplify_map_eq; reflexivity.
Qed.

(** X5. The clone has the labels of the original exactly when the
    suffix is empty: with any other suffix its service selects other
    pods than the service of the original. *)
Theorem clone_labels_equal_iff_empty_suffix (i : Inst) (suffix : string) :
  labelsOf (cloneWithSuffix i suffix) = labelsOf i <-> suffix = "".
Proof.
  rewrite labels_eq_iff.
  cbn [cloneWithSuffix name k8sName instanceType]. rewrite !append_same_l.
  split; [intros (H & _ & _); exact H | intros ->; repeat split].
Qed.

(** *** What the deployments keep *)

Lemma same_declared_refl (i : Inst) : same_declared i i.
Proof. repeat split. Qed.

Lemma same_declared_trans (i j k : Inst) :
  same_declared i j -> same_declared j k -> same_declared i k.
Proof.
  unfold same_declared. intros H1 H2.
  repeat match goal with H : _ /\ _ |- _ => destruct H end.
  repeat split; congruence.
Qed.

Lemma patchService_unfetched (i : Inst) (w : Wld) (c1 : C) :
  kubernetesService i = None ->
  on_GetService P (Namespace P) (k8sName i) (cluster w) = ((None, None), c1) ->
  patchService P i w =
  (Panic "invalid memory address or nil pointer dereference",
   after w (GetService (Namespace P) (k8sName i)) c1).
Proof.
  intros H G. unfold patchService, bind, k8s_GetService. rewrite H, call_eq, G.
  reflexivity.
Qed.

(** patchService: the instance it returns and the heap it leaves. *)
Lemma patchService_frame (i : Inst) (w : Wld) :
  heap (snd (patchService P i w)) = heap w
  /\ match fst (patchService P i w) with
     | Val (i', _) => same_declared i i'
     | Panic _ => True
     end.
Proof.
  destruct (kubernetesService i) as [s |] eqn:H.
  - rewrite (patchService_cached P i w s H). split; [reflexivity | apply same_declared_refl].
  - destruct (on_GetService P (Namespace P) (k8sName i) (cluster w))
      as [[[s |] [e |]] c1] eqn:G.
    + rewrite (patchService_lookup_error P i w _ e c1 H G).
      split; [reflexivity | apply same_declared_refl].
    + rewrite (patchService_fetched P i w s c1 H G).
      rewrite (patchService_cached P (set_kubernetesService i (Some s)) _ s eq_refl).
      split; [reflexivity | repeat split].
    + rewrite (patchService_lookup_error P i w _ e c1 H G).
      split; [reflexivity | apply same_declared_refl].
    + rewrite (patchService_unfetched i w c1 H G). split; [reflexivity | exact I].
Qed.

Lemma deployService_create_frame (i : Inst) (w : Wld) :
  heap (snd (deployService_create TypeString identifier startTime P i w)) = heap w
  /\ match fst (deployService_create TypeString identifier startTime P i w) with
     | Val (i', _) => same_declared i i'
     | Panic _ => True
     end.
Proof.
  rewrite deployService_create_eq. split; [reflexivity |].
  cbn [fst]. destruct (fst _) as [service [e |]]; repeat split.
Qed.

Lemma deployService_frame (i : Inst) (w : Wld) :
  heap (snd (deployService TypeString identifier startTime P i w)) = heap w
  /\ match fst (deployService TypeString identifier startTime P i w) with
     | Val (i', _) => same_declared i i'
     | Panic _ => True
     end.
Proof.
  unfold deployService, bind, k8s_GetService. rewrite call_eq.
  destruct (fst (on_GetService P (Namespace P) (k8sName i) (cluster w)))
    as [[found |] ignored].
  - pose proof (patchService_frame i
                  (after w (GetService (Namespace P) (k8sName i))
                     (snd (on_GetService P (Namespace P) (k8sName i) (cluster w)))))
      as [Hh Hi].
    destruct (patchService P i _) as [[[i1 [e |]] | msg] w2]; cbn [fst snd] in *.
    + split; [exact Hh | exact Hi].
    + destruct (deployService_create_frame i1 w2) as [Hh2 Hi2].
      split; [rewrite Hh2; exact Hh |].
      destruct (fst (deployService_create _ _ _ _ i1 w2)) as [[i2 r] | msg]; [| exact I].
      exact (same_declared_trans _ _ _ Hi Hi2).
    + split; [exact Hh | exact I].
  - apply (deployService_create_frame i
             (after w (GetService (Namespace P) (k8sName i))
                (snd (on_GetService P (Namespace P) (k8sName i) (cluster w))))).
Qed.

Lemma deployPod_unresolved (i : Inst) (w w1 : Wld) (nm : string) (e : error) :
  getImageRegistry P i w = (Val (nm, Some e), w1) ->
  deployPod TypeString identifier startTime P i w
  = (Val (i, Some (Errorf_v "failed to get image name: " e)), w1).
Proof. intros H. unfold deployPod, bind. rewrite H. reflexivity. Qed.

Lemma deployPod_resolved_eq (i : Inst) (w w1 : Wld) (image : string) :
  getImageRegistry P i w = (Val (image, None), w1) ->
  deployPod TypeString identifier startTime P i w =
  (Val match fst (on_DeployStatefulSet P
                    (statefulSetConfigOf TypeString identifier startTime P i image (heap w1))
                    true (cluster w1)) with
       | (_, Some e) => (i, Some (Errorf_v "failed to deploy pod: " e))
       | (statefulSet, None) => (set_kubernetesStatefulSet i statefulSet, None)
       end,
   after w1 (DeployStatefulSet
               (statefulSetConfigOf TypeString identifier startTime P i image (heap w1))
               true)
     (snd (on_DeployStatefulSet P
             (statefulSetConfigOf TypeString identifier startTime P i image (heap w1))
             true (cluster w1)))).
Proof.
  intros H. unfold deployPod, bind. rewrite H. unfold read, k8s_DeployStatefulSet.
  rewrite call_eq. unfold statefulSetConfigOf.
  destruct (fst _) as [ss [e |]]; reflexivity.
Qed.

Lemma getImageRegistry_cases (i : Inst) (w : Wld) :
  exists nm r w1,
    getImageRegistry P i w = (Val (nm, r), w1) /\ heap w1 = heap w.
Proof.
  destruct (String.eqb_spec (imageName i) "") as [E | N].
  - rewrite (getImageRegistry_unset P i w E).
    destruct (snd (fst _)); do 3 eexists; split; reflexivity.
  - rewrite (getImageRegistry_set P i w N). do 3 eexists. split; reflexivity.
Qed.

Lemma deployPod_frame (i : Inst) (w : Wld) :
  heap (snd (deployPod TypeString identifier startTime P i w)) = heap w
  /\ exists i' r,
       fst (deployPod TypeString identifier startTime P i w) = Val (i', r)
       /\ same_declared i i'.
Proof.
  destruct (getImageRegistry_cases i w) as (nm & [e |] & w1 & G & Hh).
  - rewrite (deployPod_unresolved i w w1 nm e G).
    split; [exact Hh |]. do 2 eexists. split; [reflexivity | apply same_declared_refl].
  - rewrite (deployPod_resolved_eq i w w1 nm G). cbn [fst snd after heap].
    split; [exact Hh |].
    destruct (fst _) as [ss [e |]]; do 2 eexists; (split; [reflexivity |]); repeat split.
Qed.

(** X6. deployService, patchService and deployPod change nothing of the
    declared state of the instance: the instance they return has the
    name, cluster name, image, state, type, ports, command, arguments,
    environment, volumes, resources and service account of the one they
    were given; only the two handles may differ. deployPod always
    returns. *)
Theorem deployments_keep_declared_state (i : Inst) (w : Wld) :
  match fst (deployService TypeString identifier startTime P i w) with
  | Val (i', _) => same_declared i i'
  | Panic _ => True
  end
  /\ match fst (patchService P i w) with
     | Val (i', _) => same_declared i i'
     | Panic _ => True
     end
  /\ exists i' r,
       fst (deployPod TypeString identifier startTime P i w) = Val (i', r)
       /\ same_declared i i'.
Proof.
  split; [apply deployService_frame |].
  split; [apply patchService_frame | apply deployPod_frame].
Qed.

(** X7. No helper method writes through a slice or a map of the
    instance: the heap after deployService, patchService, destroyService,
    deployPod, destroyPod, deployVolume, destroyVolume, getImageRegistry
    and addFileToBuilder is the heap before. *)
Theorem helpers_leave_heap_unchanged (i : Inst) (w : Wld) (src dest chown : string) :
  heap (snd (deployService TypeString identifier startTime P i w)) = heap w
  /\ heap (snd (patchService P i w)) = heap w
  /\ heap (snd (destroyService P i w)) = heap w
  /\ heap (snd (deployPod TypeString identifier startTime P i w)) = heap w
  /\ heap (snd (destroyPod P i w)) = heap w
  /\ heap (snd (deployVolume TypeString identifier startTime ParseQuantity P i w)) = heap w
  /\ heap (snd (destroyVolume P i w)) = heap w
  /\ heap (snd (getImageRegistry P i w)) = heap w
  /\ heap (snd (addFileToBuilder P i src dest chown w)) = heap w.
Proof.
  split; [apply deployService_frame |].
  split; [apply patchService_frame |].
  split; [rewrite destroyService_eq; reflexivity |].
  split; [apply deployPod_frame |].
  split; [rewrite destroyPod_eq; reflexivity |].
  split; [rewrite deployVolume_eq; destruct (addSizes _ _ _); reflexivity |].
  split; [rewrite destroyVolume_eq; reflexivity |].
  split; [| rewrite addFileToBuilder_eq; reflexivity].
  destruct (getImageRegistry_cases i w) as (nm & r & w1 & G & Hh).
  rewrite G. exact Hh.
Qed.

(** *** deployService, on the paths the claims leave out *)

(** X8. When the lookup gives no service, whatever error it gives,
    deployService goes to the creation: one call, with the labels of the
    instance as labels and as selector and with the declared ports. It
    stores the handle that the creation answers with, or returns the
    error of the creation (error deploying service) around its cause and
    leaves the instance as it was. *)
Theorem deployService_creates_when_lookup_finds_nothing
    (i : Inst) (w : Wld) (ignored : option error) (c1 : C) :
  on_GetService P (Namespace P) (k8sName i) (cluster w) = ((None, ignored), c1) ->
  calls (snd (deployService TypeString identifier startTime P i w))
  = (calls w ++ [GetService (Namespace P) (k8sName i);
                 DeployService (Namespace P) (k8sName i) (labelsOf i) (labelsOf i)
                   (ints (heap w) (portsTCP i)) (ints (heap w) (portsUDP i))])%list
  /\ (forall service c2,
        on_DeployService P (Namespace P) (k8sName i) (labelsOf i) (labelsOf i)
          (ints (heap w) (portsTCP i)) (ints (heap w) (portsUDP i)) c1
        = ((service, None), c2) ->
        fst (deployService TypeString identifier startTime P i w)
        = Val (set_kubernetesService i service, None))
  /\ (forall service e c2,
        on_DeployService P (Namespace P) (k8sName i) (labelsOf i) (labelsOf i)
          (ints (heap w) (portsTCP i)) (ints (heap w) (portsUDP i)) c1
        = ((service, Some e), c2) ->
        exists err,
          fst (deployService TypeString identifier startTime P i w) = Val (i, Some err)
          /\ Error err = "error deploying service '" +:+ k8sName i +:+ "': " +:+ Error e
          /\ Unwrap err = Some e).
Proof.
  intros G.
  assert (deployService TypeString identifier startTime P i w
          = deployService_create TypeString identifier startTime P i
              (after w (GetService (Namespace P) (k8sName i)) c1)) as E.
  { unfold deployService, bind, k8s_GetService. rewrite call_eq, G. reflexivity. }
  rewrite E, deployService_create_eq. cbn [fst snd after calls heap cluster].
  split; [rewrite <- app_assoc; reflexivity |]. split.
  - intros service c2 D. rewrite D. reflexivity.
  - intros service e c2 D. rewrite D. eexists. split; [reflexivity |].
    split; [| reflexivity]. cbn [Errorf_w Error]. rewrite !append_assoc. reflexivity.
Qed.

(** X9. For an instance that holds a service handle: when the lookup
    finds the service and the patch of it fails, deployService stops
    before the creation: the calls are the lookup and the patch, the
    instance is unchanged, and the error carries the patching prefix
    twice, once from patchService and once from deployService, around the
    cause. *)
Theorem deployService_stops_when_patch_fails
    (i : Inst) (w : Wld) (found s : Service) (ignored : option error)
    (e : error) (c1 c2 : C) :
  on_GetService P (Namespace P) (k8sName i) (cluster w) = ((Some found, ignored), c1) ->
  kubernetesService i = Some s ->
  on_PatchService P (Namespace P) (k8sName i) (Labels (Meta s)) (Selector (Spec s))
    (ints (heap w) (portsTCP i)) (ints (heap w) (portsUDP i)) c1 = (Some e, c2) ->
  deployService TypeString identifier startTime P i w
  = (Val (i, Some (Errorf_w ("error patching service '" +:+ k8sName i +:+ "': ")
                     (Errorf_w ("error patching service '" +:+ k8sName i +:+ "': ") e))),
     after (after w (GetService (Namespace P) (k8sName i)) c1)
       (PatchService (Namespace P) (k8sName i) (Labels (Meta s)) (Selector (Spec s))
          (ints (heap w) (portsTCP i)) (ints (heap w) (portsUDP i))) c2).
Proof.
  intros G H Hp. unfold deployService, bind, k8s_GetService. rewrite call_eq, G.
  cbn [fst snd]. rewrite (patchService_cached P i _ s H). cbn [after heap cluster].
  rewrite Hp. reflexivity.
Qed.

(** X23. For an instance that holds no service handle: when the lookup
    of deployService finds the service, patchService looks it up a second
    time and stores the handle it gets; when the patch then fails,
    deployService stops before the creation and returns the instance
    with that handle stored, and the error with the patching prefix
    twice around the cause. *)
Theorem deployService_keeps_fetched_handle_when_patch_fails
    (i : Inst) (w : Wld) (found s : Service) (ignored : option error)
    (e : error) (c1 c2 c3 : C) :
  on_GetService P (Namespace P) (k8sName i) (cluster w) = ((Some found, ignored), c1) ->
  kubernetesService i = None ->
  on_GetService P (Namespace P) (k8sName i) c1 = ((Some s, None), c2) ->
  on_PatchService P (Namespace P) (k8sName i) (Labels (Meta s)) (Selector (Spec s))
    (ints (heap w) (portsTCP i)) (ints (heap w) (portsUDP i)) c2 = (Some e, c3) ->
  deployService TypeString identifier startTime P i w
  = (Val (set_kubernetesService i (Some s),
          Some (Errorf_w ("error patching service '" +:+ k8sName i +:+ "': ")
                  (Errorf_w ("error patching service '" +:+ k8sName i +:+ "': ") e))),
     after (after (after w (GetService (Namespace P) (k8sName i)) c1)
              (GetService (Namespace P) (k8sName i)) c2)
       (PatchService (Namespace P) (k8sName i) (Labels (Meta s)) (Selector (Spec s))
          (ints (heap w) (portsTCP i)) (ints (heap w) (portsUDP i))) c3).
Proof.
  intros G H G2 Hp. unfold deployService, bind, k8s_GetService. rewrite call_eq, G.
  cbn [fst snd].
  rewrite (patchService_fetched P i (after w (GetService (Namespace P) (k8sName i)) c1)
             s c2 H G2).
  rewrite (patchService_cached P (set_kubernetesService i (Some s)) _ s eq_refl).
  cbn [after heap cluster k8sName portsTCP portsUDP set_kubernetesService].
  rewrite Hp. reflexivity.
Qed.

(** *** Image resolution and deployPod *)

(** X10. With an empty imageName and a random source that fails,
    getImageRegistry returns the empty name and an error around the
    cause, and deployPod returns failed to get image name, makes no call
    to deploy a workload and leaves the instance as it was. The error of
    deployPod is built with the verb v: it does not wrap the cause. *)
Theorem deployPod_fails_without_random_identifier
    (i : Inst) (w : Wld) (u : string) (e : error) (c1 : C) :
  imageName i = "" ->
  on_NewRandom P (cluster w) = ((u, Some e), c1) ->
  getImageRegistry P i w
  = (Val ("", Some (Errorf_w "error generating UUID: " e)), after w NewRandom c1)
  /\ deployPod TypeString identifier startTime P i w
     = (Val (i, Some (New ("failed to get image name: "
                           +:+ "error generating UUID: " +:+ Error e))),
        after w NewRandom c1).
Proof.
  intros H G.
  assert (getImageRegistry P i w
          = (Val ("", Some (Errorf_w "error generating UUID: " e)), after w NewRandom c1))
    as E.
  { rewrite (getImageRegistry_unset P i w H), G. reflexivity. }
  split; [exact E |]. rewrite (deployPod_unresolved i w _ _ _ E). reflexivity.
Qed.

(** X11. Once the image is resolved, deployPod makes one call: it
    deploys, with the init flag set, the configuration of lines 128 to
    149 (one replica, the cluster name for the set and the pod, the
    labels of the instance for both, the resolved image, and the command,
    arguments, environment and volumes read at that moment). It stores
    the handle only when the call succeeds; on an error it returns failed
    to deploy pod and the instance unchanged. *)
Theorem deployPod_deploys_one_workload
    (i : Inst) (w w1 : Wld) (image : string) :
  getImageRegistry P i w = (Val (image, None), w1) ->
  calls (snd (deployPod TypeString identifier startTime P i w))
  = (calls w1 ++ [DeployStatefulSet
                    (statefulSetConfigOf TypeString identifier startTime P i image (heap w1))
                    true])%list
  /\ (forall statefulSet c2,
        on_DeployStatefulSet P
          (statefulSetConfigOf TypeString identifier startTime P i image (heap w1))
          true (cluster w1) = ((statefulSet, None), c2) ->
        fst (deployPod TypeString identifier startTime P i w)
        = Val (set_kubernetesStatefulSet i statefulSet, None))
  /\ (forall statefulSet e c2,
        on_DeployStatefulSet P
          (statefulSetConfigOf TypeString identifier startTime P i image (heap w1))
          true (cluster w1) = ((statefulSet, Some e), c2) ->
        fst (deployPod TypeString identifier startTime P i w)
        = Val (i, Some (New ("failed to deploy pod: " +:+ Error e)))).
Proof.
  intros G. rewrite (deployPod_resolved_eq i w w1 image G). cbn [fst snd after calls].
  split; [reflexivity |]. split.
  - intros ss c2 D. rewrite D. reflexivity.
  - intros ss e c2 D. rewrite D. reflexivity.
Qed.

(** *** deployVolume without volumes *)

Lemma vols_empty (h : gmap loc obj) (s : slice) : s_len s = 0 -> vols h s = [].
Proof.
  intros H. unfold vols. rewrite H.
  destruct (h !! s_arr s) as [[| | xs |] |]; reflexivity.
Qed.

(** X12. For an instance without volumes deployVolume still asks for a
    claim: one call, for a claim of quantity zero. *)
Theorem deployVolume_without_volumes_requests_empty_claim (i : Inst) (w : Wld) :
  s_len (volumes i) = 0 ->
  fst (deployVolume TypeString identifier startTime ParseQuantity P i w) = Val None
  /\ calls (snd (deployVolume TypeString identifier startTime ParseQuantity P i w))
     = (calls w ++ [DeployPersistentVolumeClaim (Namespace P) (k8sName i)
                      (labelsOf i) 0%Z])%list.
Proof.
  intros H.
  assert (Forall2 (fun v q => ParseQuantity (Size v) = Some q)
            (vols (heap w) (volumes i)) []) as F.
  { rewrite (vols_empty _ _ H). constructor. }
  rewrite (deployVolume_parsed TypeString identifier startTime ParseQuantity P i w [] F).
  split; reflexivity.
Qed.

(** *** The clone *)

(** X13. Cloning is additive in the suffix: the clone with suffix b of
    the clone with suffix a is the clone with suffix a followed by b. *)
Theorem clone_of_clone_appends_suffixes (i : Inst) (a b : string) :
  cloneWithSuffix (cloneWithSuffix i a) b = cloneWithSuffix i (a +:+ b).
Proof.
  unfold cloneWithSuffix.
  cbn [name k8sName imageName state instanceType kubernetesService builderFactory
       kubernetesStatefulSet portsTCP portsUDP command args env volumes
       memoryRequest memoryLimit cpuRequest].
  rewrite !append_assoc. reflexivity.
Qed.

(** X14. The clone does not take over the service account: the literal
    of cloneWithSuffix names no serviceAccountName. A pod deployed for
    the clone of an instance with an image runs that image under the
    cluster name of the clone and with an empty service account, whatever
    the account of the original. *)
Theorem clone_pod_has_no_service_account (i : Inst) (suffix : string) (w : Wld) :
  imageName i <> "" ->
  exists cfg,
    calls (snd (deployPod TypeString identifier startTime P (cloneWithSuffix i suffix) w))
    = (calls w ++ [DeployStatefulSet cfg true])%list
    /\ pc_ServiceAccountName (sc_PodConfig cfg) = ""
    /\ pc_Image (sc_PodConfig cfg) = imageName i
    /\ sc_Name cfg = k8sName i +:+ suffix
    /\ pc_Name (sc_PodConfig cfg) = k8sName i +:+ suffix
    /\ pc_Command (sc_PodConfig cfg) = strs (heap w) (command i)
    /\ pc_Env (sc_PodConfig cfg) = strmap (heap w) (env i).
Proof.
  intros H.
  assert (imageName (cloneWithSuffix i suffix) <> "") as H' by exact H.
  rewrite (deployPod_resolved_eq _ w w _ (getImageRegistry_set P _ w H')).
  eexists. cbn [fst snd after calls]. split; [reflexivity |]. repeat split.
Qed.

(** X15. The clone takes over the service handle of the original: with
    that handle cached, patchService of the clone makes no lookup under
    its own name and patches the service named after the clone with the
    labels and the selector of the service of the original. *)
Theorem clone_patches_with_handle_of_original
    (i : Inst) (suffix : string) (s : Service) (w : Wld) :
  kubernetesService i = Some s ->
  calls (snd (patchService P (cloneWithSuffix i suffix) w))
  = (calls w ++ [PatchService (Namespace P) (k8sName i +:+ suffix)
                   (Labels (Meta s)) (Selector (Spec s))
                   (ints (heap w) (portsTCP i)) (ints (heap w) (portsUDP i))])%list.
Proof.
  intros H.
  rewrite (patchService_cached P (cloneWithSuffix i suffix) w s H). reflexivity.
Qed.

(** *** File staging *)

(** X16. validateFileArgs reports the first check that fails, in the
    order src, dest, chown, format: an empty src is reported whatever the
    other arguments are, an empty dest only when src is set, and so on. *)
Theorem validateFileArgs_reports_first_failure (i : Inst) (src dest chown : string) :
  (src = "" -> validateFileArgs i src dest chown = Some (New "src must be set"))
  /\ (src <> "" -> dest = "" ->
      validateFileArgs i src dest chown = Some (New "dest must be set"))
  /\ (src <> "" -> dest <> "" -> chown = "" ->
      validateFileArgs i src dest chown = Some (New "chown must be set"))
  /\ (src <> "" -> dest <> "" -> chown <> "" -> occurrences ":" chown <> 1 ->
      validateFileArgs i src dest chown
      = Some (New "chown must be in format 'user:group'")).
Proof.
  unfold validateFileArgs.
  rewrite Contains_colon, Split_colon_length, Bool.negb_involutive.
  destruct (String.eqb_spec src "") as [Hs | Hs];
    destruct (String.eqb_spec dest "") as [Hd | Hd];
    destruct (String.eqb_spec chown "") as [Hc | Hc];
    repeat split; intros; try reflexivity; try contradiction.
  destruct (occurrences ":" chown) as [| [| n]]; [reflexivity | contradiction | reflexivity].
Qed.

(** X17. The format check counts the colon only: with src and dest set,
    every owner made of a user, one colon and a group is accepted when
    neither part holds a colon, also when the user, the group or both are
    empty (the owner is then not empty, since it holds the colon). *)
Theorem validateFileArgs_accepts_user_colon_group
    (i : Inst) (src dest user group : string) :
  src <> "" -> dest <> "" ->
  occurrences ":" user = 0 -> occurrences ":" group = 0 ->
  validateFileArgs i src dest (user +:+ ":" +:+ group) = None.
Proof.
  intros Hs Hd Hu Hg. apply validateFileArgs_ok. repeat split; try assumption.
  - intros H. apply (f_equal String.length) in H.
    rewrite !append_length in H. cbn [String.length] in H. lia.
  - rewrite !occurrences_append, Hu, Hg. reflexivity.
Qed.

(** X18. addFileToBuilder does not depend on the source path. When the
    builder answers with an error, it returns an error that names the
    destination and the instance and wraps the cause; it returns nil
    exactly when the builder does. *)
Theorem addFileToBuilder_ignores_src_and_wraps_failure
    (i : Inst) (src src' dest chown : string) (w : Wld) :
  addFileToBuilder P i src dest chown w = addFileToBuilder P i src' dest chown w
  /\ (forall e,
        fst (on_AddToBuilder P (builderFactory i) dest dest chown (cluster w)) = Some e ->
        exists err,
          fst (addFileToBuilder P i src dest chown w) = Val (Some err)
          /\ Error err = "error adding file '" +:+ dest +:+ "' to instance '"
                         +:+ name i +:+ "': " +:+ Error e
          /\ Unwrap err = Some e)
  /\ (fst (addFileToBuilder P i src dest chown w) = Val None <->
      fst (on_AddToBuilder P (builderFactory i) dest dest chown (cluster w)) = None).
Proof.
  split; [reflexivity |]. rewrite addFileToBuilder_eq. cbn [fst]. split.
  - intros e ->. eexists. split; [reflexivity |]. split; [| reflexivity].
    cbn [Errorf_w Error]. rewrite !append_assoc. reflexivity.
  - destruct (fst _); split; intros H; try reflexivity; discriminate.
Qed.

(** *** generateK8sName *)

(** X19. With a random identifier of at least eight bytes,
    generateK8sName returns the name, a dash and the first eight bytes
    of the identifier: the result starts with the name and is nine bytes
    longer, and two identifiers that differ in their first eight bytes
    give two different cluster names. *)
Theorem generateK8sName_appends_eight_bytes
    (nm u : string) (w : Wld) (c1 : C) :
  on_NewRandom P (cluster w) = ((u, None), c1) ->
  8 <= String.length u ->
  generateK8sName P nm w
  = (Val (nm +:+ "-" +:+ String.substring 0 8 u, None), after w NewRandom c1)
  /\ String.prefix nm (nm +:+ "-" +:+ String.substring 0 8 u) = true
  /\ String.length (nm +:+ "-" +:+ String.substring 0 8 u) = String.length nm + 9
  /\ (forall u',
        nm +:+ "-" +:+ String.substring 0 8 u = nm +:+ "-" +:+ String.substring 0 8 u' ->
        String.substring 0 8 u = String.substring 0 8 u').
Proof.
  intros G Hlen. split; [| split; [| split]].
  - unfold generateK8sName, uuid_NewRandom, bind. rewrite call_eq, G. cbn [fst snd].
    destruct (Nat.leb_spec 8 (String.length u)) as [_ | Hlt]; [reflexivity | lia].
  - apply prefix_append.
  - rewrite !append_length, substring_length by exact Hlen. cbn [String.length]. lia.
  - intros u' H. apply String.app_inj in H. apply String.app_inj in H. exact H.
Qed.

(** X20. When the random source fails, generateK8sName returns the
    empty name and an error (error generating UUID) that wraps the
    cause. *)
Theorem generateK8sName_fails_without_random_identifier
    (nm u : string) (e : error) (w : Wld) (c1 : C) :
  on_NewRandom P (cluster w) = ((u, Some e), c1) ->
  generateK8sName P nm w
  = (Val ("", Some (Wrap ("error generating UUID: " +:+ Error e) e)),
     after w NewRandom c1).
Proof.
  intros G. unfold generateK8sName, uuid_NewRandom, bind. rewrite call_eq, G.
  reflexivity.
Qed.

(** *** Ports shared with a clone *)

Lemma fresh_loc_unused (h : gmap loc obj) : h !! fresh_loc h = None.
Proof.
  apply not_elem_of_dom. intros Hin. apply elem_of_elements in Hin.
  assert (forall (ls : list nat) (l : nat), l ∈ ls -> l <= foldr Nat.max 0 ls) as Hmax.
  { induction ls as [| x ls IH]; intros l Hl; [inversion Hl |].
    cbn [foldr]. apply elem_of_cons in Hl as [-> | Hl]; [lia |].
    specialize (IH l Hl). lia. }
  apply Hmax in Hin. unfold fresh_loc, loc in Hin. lia.
Qed.

Lemma append_int_seen (s : slice) (v : Z) (w : Wld) (xs : list Z) :
  heap w !! s_arr s = Some (IntArr xs) ->
  s_len s <= s_cap s -> s_cap s <= length xs ->
  exists s' w',
    append_int s v w = (Val s', w')
    /\ ints (heap w') s' = (ints (heap w) s ++ [v])%list
    /\ ints (heap w') s = ints (heap w) s.
Proof.
  intros Hxs Hlc Hcl. unfold append_int.
  destruct (Nat.ltb_spec (s_len s) (s_cap s)) as [Hlt | Hge].
  - rewrite Hxs. do 2 eexists. split; [reflexivity |].
    unfold ints. cbn [heap s_arr s_len]. rewrite lookup_insert_eq, Hxs. split.
    + rewrite (take_S_r _ _ v) by (apply list_lookup_insert_eq; lia).
      rewrite take_insert_ge by lia. reflexivity.
    + apply take_insert_ge. lia.
  - do 2 eexists. split; [reflexivity |].
    assert (fresh_loc (heap w) <> s_arr s) as Hne.
    { intros E. pose proof (fresh_loc_unused (heap w)) as F. rewrite E, Hxs in F.
      discriminate. }
    cbn [heap]. split.
    + unfold ints at 1. cbn [s_arr s_len]. rewrite lookup_insert_eq.
      apply take_app_length'.
      unfold ints. rewrite Hxs, length_app, length_take_le by lia. cbn [length]. lia.
    + unfold ints at 1. rewrite lookup_insert_ne by exact Hne. reflexivity.
Qed.

(** X21. An append to the portsTCP of the clone is not seen by the
    original: the clone reads the port after the old ones through the
    slice that append returns, and the original still reads the ports it
    read before, whether the append had spare capacity or moved the
    elements to a new array. *)
Theorem append_to_clone_keeps_ports_of_original
    (i : Inst) (suffix : string) (v : Z) (w : Wld) (xs : list Z) :
  heap w !! s_arr (portsTCP i) = Some (IntArr xs) ->
  s_len (portsTCP i) <= s_cap (portsTCP i) ->
  s_cap (portsTCP i) <= length xs ->
  exists s' w',
    append_int (portsTCP (cloneWithSuffix i suffix)) v w = (Val s', w')
    /\ ints (heap w') s' = (ints (heap w) (portsTCP i) ++ [v])%list
    /\ ints (heap w') (portsTCP i) = ints (heap w) (portsTCP i).
Proof. intros Hxs Hlc Hcl. exact (append_int_seen _ v w xs Hxs Hlc Hcl). Qed.

(** X22. A port stored through the portsTCP of the clone is registered
    with the original: after the store, isTCPPortRegistered of the
    original answers true for it. *)
Theorem store_through_clone_registers_port_with_original
    (i : Inst) (suffix : string) (idx : nat) (v : Z) (w : Wld) (xs : list Z) :
  heap w !! s_arr (portsTCP i) = Some (IntArr xs) ->
  idx < s_len (portsTCP i) ->
  s_len (portsTCP i) <= length xs ->
  exists w',
    store_int (portsTCP (cloneWithSuffix i suffix)) idx v w = (Val tt, w')
    /\ fst (isTCPPortRegistered i v w') = Val true.
Proof.
  intros Hxs Hlt Hlen.
  destruct (store_int_seen (portsTCP i) idx v w xs Hlt Hxs) as (w' & E & Hints).
  exists w'. split; [exact E |].
  unfold isTCPPortRegistered, bind, read, ret. cbn [fst].
  apply finds_true_iff. rewrite Hints.
  apply (list_elem_of_lookup_2 _ idx). apply list_lookup_insert_eq.
  unfold ints. rewrite Hxs, length_take_le by lia. exact Hlt.
Qed.

End HelperMore.

(** ** The further facts on the reference platform *)

Section OnReferenceMore.

Import Ref.

Local Abbreviation deployService' :=
  (deployService typeString runId started platform).
Local Abbreviation deployPod' := (deployPod typeString runId started platform).
Local Abbreviation deployVolume' :=
  (deployVolume typeString runId started parseQuantity platform).
Local Abbreviation labels' := (getLabels typeString runId started).

Lemma deployService_creates_when_lookup_finds_nothing_witness :
  calls (snd (deployService' web world0))
  = (calls world0 ++
     [GetService "test" "web-1a2b3c4d";
      DeployService "test" "web-1a2b3c4d" (labels' web) (labels' web) [8080%Z] []])%list
  /\ fst (deployService' web world0) = Val (webDeployed, None).
Proof.
  destruct (deployService_creates_when_lookup_finds_nothing typeString runId started
              platform web world0 (Some (NotFound "service" "web-1a2b3c4d")) emptyCluster
              eq_refl) as (Hcalls & Hok & _).
  split; [exact Hcalls |].
  apply (Hok (Some webService) (cluster world1)). reflexivity.
Defined.

Lemma deployService_stops_when_patch_fails_witness :
  deployService typeString runId started ReadOnly.platform webDeployed world1
  = (Val (webDeployed,
          Some (Errorf_w "error patching service 'web-1a2b3c4d': "
                  (Errorf_w "error patching service 'web-1a2b3c4d': "
                     (ReadOnly.Forbidden "service" "web-1a2b3c4d")))),
     after (after world1 (GetService "test" "web-1a2b3c4d") (cluster world1))
       (PatchService "test" "web-1a2b3c4d" (labels' web) (labels' web) [8080%Z] [])
       (cluster world1)).
Proof.
  apply (deployService_stops_when_patch_fails typeString runId started ReadOnly.platform
           webDeployed world1 webService webService None
           (ReadOnly.Forbidden "service" "web-1a2b3c4d") (cluster world1) (cluster world1));
    reflexivity.
Defined.

Lemma deployService_keeps_fetched_handle_when_patch_fails_witness :
  deployService typeString runId started ReadOnly.platform web
    {| heap := webHeap; cluster := cluster world1; calls := [] |}
  = (Val (webDeployed,
          Some (Errorf_w "error patching service 'web-1a2b3c4d': "
                  (Errorf_w "error patching service 'web-1a2b3c4d': "
                     (ReadOnly.Forbidden "service" "web-1a2b3c4d")))),
     {| heap := webHeap; cluster := cluster world1;
        calls := [GetService "test" "web-1a2b3c4d"; GetService "test" "web-1a2b3c4d";
                  PatchService "test" "web-1a2b3c4d" (labels' web) (labels' web)
                    [8080%Z] []] |}).
Proof.
  apply (deployService_keeps_fetched_handle_when_patch_fails typeString runId started
           ReadOnly.platform web
           {| heap := webHeap; cluster := cluster world1; calls := [] |}
           webService webService None (ReadOnly.Forbidden "service" "web-1a2b3c4d")
           (cluster world1) (cluster world1) (cluster world1));
    reflexivity.
Defined.

Lemma deployPod_fails_without_random_identifier_witness :
  getImageRegistry platform web world0
  = (Val ("", Some (Errorf_w "error generating UUID: " (New "no random data"))),
     after world0 NewRandom emptyCluster)
  /\ deployPod' web world0
     = (Val (web, Some (New "failed to get image name: error generating UUID: no random data")),
        after world0 NewRandom emptyCluster).
Proof.
  apply (deployPod_fails_without_random_identifier typeString runId started platform
           web world0 "" (New "no random data") emptyCluster); reflexivity.
Defined.

Lemma deployPod_deploys_one_workload_witness :
  calls (snd (deployPod' webWithImage world0))
  = (calls world0 ++
     [DeployStatefulSet
        (statefulSetConfigOf typeString runId started platform webWithImage
           "nginx:1.25" (heap world0)) true])%list
  /\ fst (deployPod' webWithImage world0)
     = Val (set_kubernetesStatefulSet webWithImage
              (Some (statefulSetConfigOf typeString runId started platform webWithImage
                       "nginx:1.25" (heap world0))),
            None).
Proof.
  destruct (deployPod_deploys_one_workload typeString runId started platform
              webWithImage world0 world0 "nginx:1.25" eq_refl) as (Hcalls & Hok & _).
  split; [exact Hcalls |].
  apply (Hok _ (with_workloads emptyCluster
                  {[ "web-1a2b3c4d" :=
                       statefulSetConfigOf typeString runId started platform webWithImage
                         "nginx:1.25" (heap world0) ]})).
  reflexivity.
Defined.

Lemma deployVolume_without_volumes_requests_empty_claim_witness :
  fst (deployVolume' api worldApi) = Val None
  /\ calls (snd (deployVolume' api worldApi))
     = (calls worldApi ++
        [DeployPersistentVolumeClaim "test" "api-5e6f7a8b" (labels' api) 0%Z])%list.
Proof.
  apply (deployVolume_without_volumes_requests_empty_claim typeString runId started
           parseQuantity platform api worldApi).
  reflexivity.
Defined.

Lemma clone_pod_has_no_service_account_witness :
  exists cfg,
    calls (snd (deployPod' (cloneWithSuffix webWithImage "-2") world0))
    = (calls world0 ++ [DeployStatefulSet cfg true])%list
    /\ pc_ServiceAccountName (sc_PodConfig cfg) = ""
    /\ pc_Image (sc_PodConfig cfg) = "nginx:1.25"
    /\ sc_Name cfg = "web-1a2b3c4d" +:+ "-2"
    /\ pc_Name (sc_PodConfig cfg) = "web-1a2b3c4d" +:+ "-2"
    /\ pc_Command (sc_PodConfig cfg) = strs (heap world0) (command webWithImage)
    /\ pc_Env (sc_PodConfig cfg) = strmap (heap world0) (env webWithImage).
Proof.
  apply (clone_pod_has_no_service_account typeString runId started platform
           webWithImage "-2" world0).
  discriminate.
Defined.

Lemma clone_patches_with_handle_of_original_witness :
  calls (snd (patchService platform (cloneWithSuffix webDeployed "-2") world1))
  = (calls world1 ++
     [PatchService "test" ("web-1a2b3c4d" +:+ "-2") (labels' web) (labels' web)
        [8080%Z] []])%list.
Proof.
  apply (clone_patches_with_handle_of_original platform webDeployed "-2" webService world1).
  reflexivity.
Defined.

Lemma validateFileArgs_accepts_user_colon_group_witness :
  validateFileArgs web "/src" "/dest" ("" +:+ ":" +:+ "") = None
  /\ validateFileArgs web "/src" "/dest" ("root" +:+ ":" +:+ "") = None.
Proof.
  split.
  - apply (validateFileArgs_accepts_user_colon_group web "/src" "/dest" "" "");
      [discriminate | discriminate | reflexivity | reflexivity].
  - apply (validateFileArgs_accepts_user_colon_group web "/src" "/dest" "root" "");
      [discriminate | discriminate | reflexivity | reflexivity].
Defined.

Lemma generateK8sName_appends_eight_bytes_witness :
  generateK8sName platform "web" worldRandom
  = (Val ("web" +:+ "-" +:+ String.substring 0 8 "0b9f5c1e-7a3d-4c1b-9a52-3f1d2e4a6b70",
          None),
     after worldRandom NewRandom
       {| services := ∅; workloads := ∅; claims := ∅;
          uuids := ["f47ac10b-58cc-4372-a567-0e02b2c3d479"]; staged := [] |})
  /\ String.length ("web" +:+ "-" +:+
                    String.substring 0 8 "0b9f5c1e-7a3d-4c1b-9a52-3f1d2e4a6b70")
     = String.length "web" + 9.
Proof.
  destruct (generateK8sName_appends_eight_bytes platform "web"
              "0b9f5c1e-7a3d-4c1b-9a52-3f1d2e4a6b70" worldRandom
              {| services := ∅; workloads := ∅; claims := ∅;
                 uuids := ["f47ac10b-58cc-4372-a567-0e02b2c3d479"]; staged := [] |}
              eq_refl ltac:(cbn; lia))
    as (Heq & _ & Hlen & _).
  split; [exact Heq | exact Hlen].
Defined.

Example generateK8sName_web :
  fst (generateK8sName platform "web" worldRandom) = Val ("web-0b9f5c1e", None).
Proof. reflexivity. Qed.

Lemma generateK8sName_fails_without_random_identifier_witness :
  generateK8sName platform "web" world0
  = (Val ("", Some (Wrap ("error generating UUID: " +:+ Error (New "no random data"))
                      (New "no random data"))),
     after world0 NewRandom emptyCluster).
Proof.
  apply (generateK8sName_fails_without_random_identifier platform "web" ""
           (New "no random data") world0 emptyCluster).
  reflexivity.
Defined.

Lemma append_to_clone_keeps_ports_of_original_witness :
  exists s' w',
    append_int (portsTCP (cloneWithSuffix api "-2")) 9090%Z worldApi = (Val s', w')
    /\ ints (heap w') s' = (ints (heap worldApi) (portsTCP api) ++ [9090%Z])%list
    /\ ints (heap w') (portsTCP api) = ints (heap worldApi) (portsTCP api).
Proof.
  apply (append_to_clone_keeps_ports_of_original api "-2" 9090%Z worldApi
           [8080%Z; 8081%Z; 8082%Z; 0%Z]);
    [reflexivity | cbn; lia | cbn; lia].
Defined.

Lemma store_through_clone_registers_port_with_original_witness :
  exists w',
    store_int (portsTCP (cloneWithSuffix web "-2")) 0 9090%Z world0 = (Val tt, w')
    /\ fst (isTCPPortRegistered web 9090%Z w') = Val true.
Proof.
  apply (store_through_clone_registers_port_with_original web "-2" 0 9090%Z world0
           [8080%Z]);
    [reflexivity | cbn; lia | cbn; lia].
Defined.

(** Ports at the two ends of the range, and just outside it. *)
Example validatePort_edges :
  validatePort 1 = None /\ validatePort 65535 = None
  /\ validatePort 0 = Some (New "port number '0' is out of range")
  /\ validatePort 65536 = Some (New "port number '65536' is out of range")
  /\ validatePort (-1) = Some (New "port number '-1' is out of range").
Proof. repeat split; vm_compute; reflexivity. Qed.

End OnReferenceMore.
